(** * File hosting service: catalog and content store

    A shallow embedding of [app.py]: the extension check, the chunked
    SHA-256 checksum, the SQLite catalog ([FileHostingDB]) and the upload,
    raw and download handlers, with the properties of the storage layer. *)

From Stdlib Require Import ZArith NArith List String Ascii Strings.Byte Lia Bool.
From stdpp Require Import base option list sorting gmap pretty.
From Equations.Prop Require Import Equations Logic.
Import ListNotations.

Local Open Scope Z_scope.

(** ** Text

    A Python [str] is a sequence of Unicode code points. *)

Definition char := N.
Definition pystr := list char.
Definition bytes := list byte.

(** An ASCII literal as a [str]. *)
Definition ustr (s : string) : pystr :=
  map N_of_ascii (list_ascii_of_string s).

Definition dot : char := 46%N.
Definition slash : char := 47%N.
Definition underscore : char := 95%N.
Definition percent : char := 37%N.
Definition NUL : char := 0%N.

Definition is_ascii (c : char) : bool := (c <? 128)%N.
Definition is_ascii_upper (c : char) : bool := (65 <=? c)%N && (c <=? 90)%N.

(** [str.lower()] on one ASCII character. *)
Definition ascii_lower (c : char) : char :=
  if is_ascii_upper c then (c + 32)%N else c.

(** [c in s] for a one-character [c]. *)
Definition contains_char (c : char) (s : pystr) : bool :=
  existsb (N.eqb c) s.

(** [s.rsplit(c, 1)[1]]: what follows the last [c]; [None] is the
    [IndexError] of a string without [c]. *)
Fixpoint rsplit_last (c : char) (s : pystr) : option pystr :=
  match s with
  | [] => None
  | x :: t =>
      match rsplit_last c t with
      | Some e => Some e
      | None => if (x =? c)%N then Some t else None
      end
  end.

(** [s.rstrip(c)]. *)
Fixpoint rstrip (c : char) (s : pystr) : pystr :=
  match s with
  | [] => []
  | x :: t =>
      match rstrip c t with
      | [] => if (x =? c)%N then [] else [x]
      | r => x :: r
      end
  end.

(** [str(n)] for a non-negative integer. *)
Definition str_of_N (n : N) : pystr := ustr (pretty n).

Definition str_eqb (a b : pystr) : bool := bool_decide (a = b).

(** ** SHA-256

    FIPS 180-4 on 32-bit words held in [Z], for a [hashlib.sha256] object
    to evaluate with. *)

Module SHA256.

Definition w32 (x : Z) : Z := x mod 2 ^ 32.
Definition add32 (a b : Z) : Z := w32 (a + b).
Definition rotr (n x : Z) : Z :=
  Z.lor (Z.shiftr x n) (w32 (Z.shiftl x (32 - n))).
Definition not32 (x : Z) : Z := Z.lxor x (2 ^ 32 - 1).

Definition Ch (x y z : Z) : Z := Z.lxor (Z.land x y) (Z.land (not32 x) z).
Definition Maj (x y z : Z) : Z :=
  Z.lxor (Z.lxor (Z.land x y) (Z.land x z)) (Z.land y z).
Definition Sigma0 (x : Z) : Z :=
  Z.lxor (Z.lxor (rotr 2 x) (rotr 13 x)) (rotr 22 x).
Definition Sigma1 (x : Z) : Z :=
  Z.lxor (Z.lxor (rotr 6 x) (rotr 11 x)) (rotr 25 x).
Definition sigma0 (x : Z) : Z :=
  Z.lxor (Z.lxor (rotr 7 x) (rotr 18 x)) (Z.shiftr x 3).
Definition sigma1 (x : Z) : Z :=
  Z.lxor (Z.lxor (rotr 17 x) (rotr 19 x)) (Z.shiftr x 10).

(** The first [n] primes, by trial division. *)
Definition is_prime (p : Z) : bool :=
  forallb (fun d => negb (p mod d =? 0))
    (List.filter (fun d => d * d <=? p) (map Z.of_nat (seq 2 18))).

Definition primes (n : nat) : list Z :=
  take n (List.filter is_prime (map Z.of_nat (seq 2 310))).

(** The integer cube root, one bit at a time from bit [bits - 1] down. *)
Fixpoint cbrt_bits (bits : nat) (x r : Z) : Z :=
  match bits with
  | O => r
  | S k =>
      let r' := r + 2 ^ Z.of_nat k in
      cbrt_bits k x (if r' * r' * r' <=? x then r' else r)
  end.

(** The round constants: the first 32 bits of the fractional parts of the
    cube roots of the first 64 primes. *)
Definition K : list Z :=
  map (fun p => w32 (cbrt_bits 36 (p * 2 ^ 96) 0)) (primes 64).

(** The initial hash value: the same of the square roots of the first 8
    primes. *)
Definition H0 : list Z :=
  map (fun p => w32 (Z.sqrt (p * 2 ^ 64))) (primes 8).

Definition byte_Z (b : byte) : Z := Z.of_N (Byte.to_N b).

(** Big-endian bytes of the low [8 * n] bits of [x]. *)
Fixpoint be_bytes (n : nat) (x : Z) : list Z :=
  match n with
  | O => []
  | S k => be_bytes k (Z.shiftr x 8) ++ [x mod 256]
  end.

Definition pad (msg : list Z) : list Z :=
  let len := Z.of_nat (length msg) in
  let zeros := Z.to_nat ((55 - len) mod 64) in
  msg ++ [0x80] ++ repeat 0 zeros ++ be_bytes 8 (8 * len).

Fixpoint words (fuel : nat) (l : list Z) : list Z :=
  match fuel, l with
  | S k, a :: b :: c :: d :: t =>
      (((a * 256 + b) * 256 + c) * 256 + d) :: words k t
  | _, _ => []
  end.

(** The message schedule, extended from 16 to 64 words. *)
Definition schedule (block : list Z) : list Z :=
  fold_left (fun w t =>
    let at_ (i : nat) := nth (t - i) w 0 in
    w ++ [add32 (add32 (sigma1 (at_ 2%nat)) (at_ 7%nat))
                (add32 (sigma0 (at_ 15%nat)) (at_ 16%nat))])
    (seq 16 48) block.

Definition round (s : list Z) (kw : Z * Z) : list Z :=
  match s with
  | [a; b; c; d; e; f; g; h] =>
      let t1 :=
        add32 (add32 (add32 h (Sigma1 e)) (add32 (Ch e f g) kw.1)) kw.2 in
      let t2 := add32 (Sigma0 a) (Maj a b c) in
      [add32 t1 t2; a; b; c; add32 d t1; e; f; g]
  | _ => s
  end.

Definition compress (h : list Z) (block : list Z) : list Z :=
  zip_with add32 h (fold_left round (combine K (schedule block)) h).

Fixpoint blocks (fuel : nat) (h : list Z) (w : list Z) : list Z :=
  match fuel with
  | O => h
  | S k =>
      match w with
      | [] => h
      | _ => blocks k (compress h (take 16 w)) (drop 16 w)
      end
  end.

Definition digest_words (msg : bytes) : list Z :=
  let p := pad (map byte_Z msg) in
  blocks (length p) H0 (words (length p) p).

Definition hex_digit (d : Z) : char :=
  Z.to_N (if d <? 10 then 48 + d else 87 + d).

Definition hex_byte (b : Z) : pystr := [hex_digit (b / 16); hex_digit (b mod 16)].

Definition hexdigest (msg : bytes) : pystr :=
  flat_map hex_byte (flat_map (be_bytes 4) (digest_words msg)).

End SHA256.

(** ** Catalog schema

    One record per table of [init_tables]. Timestamps are the clock's
    seconds: [CURRENT_TIMESTAMP] renders them as fixed-width text, whose
    order is the order of the seconds. *)

(** An INTEGER column holds a 64-bit signed integer; arithmetic that leaves
    that range yields a REAL. *)
Inductive sqlnum :=
| SqlInt (z : Z)
| SqlReal.

Definition INT64_MAX : Z := 2 ^ 63 - 1.

(** [download_count + 1]. *)
Definition sql_succ (v : sqlnum) : sqlnum :=
  match v with
  | SqlInt z => if z <? INT64_MAX then SqlInt (z + 1) else SqlReal
  | SqlReal => SqlReal
  end.

Record file_row := {
  f_id : Z;
  f_filename : pystr;
  f_original_filename : pystr;
  f_file_type : pystr;
  f_file_size : Z;
  f_version : pystr;
  f_storage_path : pystr;
  f_public_url : pystr;
  f_raw_url : pystr;
  f_download_url : pystr;
  f_release_notes : option pystr;
  f_checksum : pystr;
  f_uploader_id : Z;
  f_uploader_name : option pystr;
  f_created_at : Z;
  f_expires_at : Z;
  f_is_active : bool;
  f_download_count : sqlnum;
  f_last_download : option Z
}.

Record version_row := {
  v_id : Z;
  v_filename : pystr;
  v_version : pystr;
  v_storage_path : pystr;
  v_raw_url : pystr;
  v_created_at : Z
}.

Record access_row := {
  a_id : Z;
  a_file_id : Z;
  a_ip_address : option pystr;
  a_user_agent : option pystr;
  a_referrer : option pystr;
  a_action : option pystr;
  a_accessed_at : Z
}.

(** The three tables in rowid order, with the AUTOINCREMENT counters of
    [sqlite_sequence]: the largest rowid each table has used. *)
Record tables := {
  files : list file_row;
  file_versions : list version_row;
  access_logs : list access_row;
  seq_files : Z;
  seq_file_versions : Z;
  seq_access_logs : Z
}.

(** [self.conn]: the one connection every handler shares. [durable] is the
    committed database; [view] is what statements on the connection read
    and write, the committed database plus the open transaction. *)
Record conn := {
  durable : tables;
  view : tables
}.

Definition empty_tables : tables :=
  {| files := []; file_versions := []; access_logs := [];
     seq_files := 0; seq_file_versions := 0; seq_access_logs := 0 |}.

Definition empty_conn : conn :=
  {| durable := empty_tables; view := empty_tables |}.

Definition set_view (t : tables) (c : conn) : conn :=
  {| durable := durable c; view := t |}.

(** [self.conn.commit()]. *)
Definition commit (c : conn) : conn :=
  {| durable := view c; view := view c |}.

(** The dictionary the upload handlers pass to [add_file]. *)
Record file_data := {
  fd_filename : pystr;
  fd_original_filename : pystr;
  fd_file_type : pystr;
  fd_file_size : Z;
  fd_version : pystr;
  fd_storage_path : pystr;
  fd_public_url : pystr;
  fd_raw_url : pystr;
  fd_download_url : pystr;
  fd_release_notes : pystr;
  fd_checksum : pystr;
  fd_uploader_id : Z;
  fd_uploader_name : pystr
}.

(** The dictionary of [get_file_by_id] and [get_file_by_filename]. *)
Record file_dict := {
  d_id : Z;
  d_filename : pystr;
  d_original_filename : pystr;
  d_file_type : pystr;
  d_file_size : Z;
  d_version : pystr;
  d_storage_path : pystr;
  d_public_url : pystr;
  d_raw_url : pystr;
  d_download_url : pystr;
  d_release_notes : option pystr;
  d_checksum : pystr;
  d_uploader_name : option pystr;
  d_created_at : Z;
  d_download_count : sqlnum;
  d_is_active : bool
}.

(** The dictionaries of [get_all_files]. *)
Record file_summary := {
  s_id : Z;
  s_original_filename : pystr;
  s_file_type : pystr;
  s_file_size : Z;
  s_version : pystr;
  s_raw_url : pystr;
  s_download_url : pystr;
  s_release_notes : option pystr;
  s_uploader_name : option pystr;
  s_created_at : Z;
  s_download_count : sqlnum;
  s_is_active : bool
}.

(** The dictionaries of [search_files]. *)
Record search_hit := {
  h_id : Z;
  h_original_filename : pystr;
  h_file_type : pystr;
  h_version : pystr;
  h_release_notes : option pystr;
  h_created_at : Z;
  h_download_count : sqlnum;
  h_raw_url : pystr
}.

(** ** SQL fragments *)

(** A statement on the connection: it returns a value or raises, and
    leaves the connection in some state either way. *)
Definition sql (A : Type) : Type := conn -> option A * conn.

Definition sql_ret {A} (a : A) : sql A := fun c => (Some a, c).

Definition sql_bind {A B} (m : sql A) (k : A -> sql B) : sql B :=
  fun c =>
    match m c with
    | (Some a, c') => k a c'
    | (None, c') => (None, c')
    end.

Definition sql_raise {A} : sql A := fun c => (None, c).

Notation "x <- m ;; k" := (sql_bind m (fun x => k))
  (at level 100, m at next level, right associativity).
Notation "m ;;; k" := (sql_bind m (fun _ => k))
  (at level 100, right associativity).

(** [try: body except Exception: return dflt]. *)
Definition try_except {A} (body : sql A) (dflt : A) : conn -> A * conn :=
  fun c =>
    match body c with
    | (Some a, c') => (a, c')
    | (None, c') => (dflt, c')
    end.

(** Which statement of a method the engine refuses, if any: statements are
    numbered from 0 in the order the method executes them. A refused
    statement raises and is undone on its own, and the transaction stays
    open: a missing table ([no such table]), a damaged page ([database
    disk image is malformed]), a commit that cannot take its lock
    ([database is locked]). *)
Definition fault := option nat.

Definition raises (flt : fault) (k : nat) : bool := bool_decide (flt = Some k).

(** What the engine does to a method: [Refused flt] is the fault [flt];
    [RolledBack k] fails statement [k] with an error on which the engine
    itself rolls the whole transaction back before it raises ([database or
    disk is full], [disk I/O error], out of memory). *)
Inductive failure :=
| Refused (flt : option nat)
| RolledBack (k : nat).

(** A [fault] stands for the failure that leaves the transaction open. *)
#[warning="-uniform-inheritance"]
Coercion Refused : option >-> failure.

(** The engine's own rollback: the open transaction is dropped. *)
Definition rollback (c : conn) : conn :=
  {| durable := durable c; view := durable c |}.

(** A statement the engine refuses is undone on its own; what earlier
    statements of the transaction wrote stays in the transaction, unless
    the error is one on which the engine rolls the transaction back. A
    statement that violates a constraint is refused. *)
Definition execute (flt : failure) (k : nat) (violates : tables -> bool)
    (run : tables -> tables) : sql unit :=
  fun c =>
    match flt with
    | Refused flt =>
        if raises flt k || violates (view c) then (None, c)
        else (Some tt, set_view (run (view c)) c)
    | RolledBack j =>
        if (j =? k)%nat then (None, rollback c)
        else if violates (view c) then (None, c)
        else (Some tt, set_view (run (view c)) c)
    end.

Definition query {A} (flt : failure) (k : nat) (run : tables -> A) : sql A :=
  fun c =>
    match flt with
    | Refused flt =>
        if raises flt k then (None, c) else (Some (run (view c)), c)
    | RolledBack j =>
        if (j =? k)%nat then (None, rollback c)
        else (Some (run (view c)), c)
    end.

(** [self.conn.commit()] as a statement: a commit refused for a lock
    leaves the transaction open with its rows pending; a commit that fails
    on the disk rolls it back. *)
Definition do_commit (flt : failure) (k : nat) : sql unit :=
  fun c =>
    match flt with
    | Refused flt => if raises flt k then (None, c) else (Some tt, commit c)
    | RolledBack j =>
        if (j =? k)%nat then (None, rollback c) else (Some tt, commit c)
    end.

(** [ORDER BY key DESC]: SQLite's sorter keeps rows of equal key in the
    order the scan produced them. *)
Fixpoint insert_desc {A} (key : A -> Z) (x : A) (l : list A) : list A :=
  match l with
  | [] => [x]
  | y :: t => if key x <? key y then y :: insert_desc key x t else x :: y :: t
  end.

Definition order_by_desc {A} (key : A -> Z) (l : list A) : list A :=
  foldr (insert_desc key) [] l.

(** Newest first: no later element has a larger key. *)
Definition key_desc {A} (key : A -> Z) (a b : A) : Prop := key b <= key a.

(** *** LIKE

    SQLite's [LIKE] without [ESCAPE]: [%] matches any run of characters,
    [_] any one character, any other character itself, with the ASCII
    letters compared without case. Both operands are read as C strings, up
    to their first NUL, and a pattern of more than 50000 bytes is an
    error. *)

Fixpoint c_str (s : pystr) : pystr :=
  match s with
  | [] => []
  | c :: t => if (c =? NUL)%N then [] else c :: c_str t
  end.

Definition like_char_eq (c d : char) : bool :=
  (c =? d)%N || (is_ascii c && is_ascii d && (ascii_lower c =? ascii_lower d)%N).

Fixpoint like_match (p s : pystr) : bool :=
  match p with
  | [] => match s with [] => true | _ => false end
  | c :: p' =>
      if (c =? percent)%N then
        (fix star (s : pystr) : bool :=
           like_match p' s ||
           match s with
           | [] => false
           | _ :: s' => star s'
           end) s
      else
        match s with
        | [] => false
        | d :: s' =>
            ((c =? underscore)%N || like_char_eq c d) && like_match p' s'
        end
  end.

Definition utf8_len (c : char) : Z :=
  if (c <? 128)%N then 1
  else if (c <? 2048)%N then 2
  else if (c <? 65536)%N then 3
  else 4.

Definition utf8_length (s : pystr) : Z := foldr (fun c n => utf8_len c + n) 0 s.

Definition SQLITE_MAX_LIKE_PATTERN_LENGTH : Z := 50000.

Definition like_too_long (pat : pystr) : bool :=
  SQLITE_MAX_LIKE_PATTERN_LENGTH <? utf8_length pat.

(** [value LIKE pat] as a WHERE condition: a NULL value does not match. *)
Definition like (value : option pystr) (pat : pystr) : bool :=
  match value with
  | Some s => like_match (c_str pat) (c_str s)
  | None => false
  end.

(** ** Requests, responses and the world *)

(** What the handlers read from the outside at one request: the clock
    ([time.time()] and [CURRENT_TIMESTAMP]), the token [secrets.choice]
    draws, the statements the engine refuses, and the client's address and
    agent. *)
Record environ := {
  clock : Z;
  token : pystr;
  lookup_fault : fault;
  write_fault : fault;
  remote_addr : option pystr;
  user_agent : option pystr
}.

(** A POST to [/upload] or [/api/upload]: the [file] part (its filename and
    bytes), the form fields, the host URL, and the bytes of the body that
    are not the file's. *)
Record upload := {
  up_file : option (pystr * bytes);
  up_version : option pystr;
  up_release_notes : option pystr;
  up_host_url : pystr;
  up_framing : N
}.

Definition content_length (r : upload) : Z :=
  Z.of_N (up_framing r) +
  match up_file r with
  | Some (_, data) => Z.of_nat (length data)
  | None => 0
  end.

(** The pages and JSON bodies, by what they interpolate. *)
Inductive page :=
| NoFileSelected
| InvalidFileType
| UploadSuccessful (fd : file_data)
| UploadFailed.

Inductive json :=
| JsonError (msg : pystr)
| JsonException
| JsonUploaded (fd : file_data).

Inductive response :=
| Page (status : Z) (p : page)
| Json (status : Z) (j : json)
| Plain (status : Z) (msg : pystr)
| SendFile (body : bytes) (as_attachment : bool) (download_name : pystr)
    (mimetype : option pystr)
| Abort (status : Z).

(** The storage root holds regular files, keyed by their path; the catalog
    is behind the shared connection. *)
Record world := {
  fs : gmap pystr bytes;
  db : conn
}.

Definition status_of (r : response) : Z :=
  match r with
  | Page st _ | Json st _ | Plain st _ | Abort st => st
  | SendFile _ _ _ _ => 200
  end.

(** ** A reference environment

    An instance of what the application takes from Python and its
    libraries: a [hashlib.sha256] object as the bytes fed to it so far, a
    [lower] that leaves non-ASCII characters alone, and a filename filter
    that keeps the characters [secure_filename] allows. *)

Module Reference.

Definition sha256 : Type := bytes.
Definition sha256_new : sha256 := [].
Definition sha256_update (h : sha256) (block : bytes) : sha256 := h ++ block.
Definition sha256_hexdigest (h : sha256) : pystr := SHA256.hexdigest h.

Definition unicode_lower (before : pystr) (c : char) (after : pystr) : pystr :=
  [c].

Definition filename_char (c : char) : bool :=
  ((48 <=? c) && (c <=? 57) || (65 <=? c) && (c <=? 90) ||
   (97 <=? c) && (c <=? 122) || (c =? 95) || (c =? 46) || (c =? 45))%N.

Definition secure_filename (filename : pystr) : pystr :=
  List.filter filename_char filename.

Definition ADMIN_ID : Z := 6493515910.

(** Hundredths of a mebibyte, for [round(n / (1024 * 1024), 2)]. *)
Definition pyfloat : Type := Z.
Definition mb_rounded (n : Z) : pyfloat := (n * 100 + 524288) / 1048576.

Definition absolute (path : pystr) : pystr := ustr "/srv/app/" ++ path.

(** ASCII text decodes to itself; anything else is refused. *)
Definition read_text (data : bytes) : option pystr :=
  if forallb (fun b => (Byte.to_N b <? 128)%N) data
  then Some (map Byte.to_N data)
  else None.

Definition to_bytes (s : string) : bytes := list_byte_of_string s.

(** Two uploads of the same second, as the handlers would register
    them. *)
Definition sample_data (name original file_type : string) : file_data :=
  {| fd_filename := ustr name;
     fd_original_filename := ustr original;
     fd_file_type := ustr file_type;
     fd_file_size := 17;
     fd_version := ustr "2.0.0";
     fd_storage_path := ustr "uploads/" ++ ustr name;
     fd_public_url := ustr "http://localhost:10000file/" ++ ustr name;
     fd_raw_url := ustr "http://localhost:10000raw/" ++ ustr name;
     fd_download_url := ustr "http://localhost:10000download/" ++ ustr name;
     fd_release_notes := [];
     fd_checksum := [];
     fd_uploader_id := ADMIN_ID;
     fd_uploader_name := ustr "Admin" |}.

Definition first_upload : file_data :=
  sample_data "1700000000_Ab3dE9xZ.json" "config.json" "json".

Definition second_upload : file_data :=
  sample_data "1700000000_Qr7sT2uV.txt" "a.txt" "txt".

Definition sample_environ : environ :=
  {| clock := 1700000000;
     token := ustr "Ab3dE9xZ";
     lookup_fault := None;
     write_fault := None;
     remote_addr := None;
     user_agent := None |}.

Definition sample_upload : upload :=
  {| up_file := Some (ustr "config.JSON", to_bytes "{'a': 1}         ");
     up_version := Some (ustr "2.0.0");
     up_release_notes := None;
     up_host_url := ustr "http://localhost:10000/";
     up_framing := 300 |}.

Definition empty_world : world := {| fs := ∅; db := empty_conn |}.

(** The same request, with the engine refusing the second statement of
    the registration. *)
Definition faulty_environ : environ :=
  {| clock := 1700000000;
     token := ustr "Ab3dE9xZ";
     lookup_fault := None;
     write_fault := Some 1%nat;
     remote_addr := None;
     user_agent := None |}.

(** The same request, with the commit of the registration refused: another
    connection holds a lock on the database file. *)
Definition locked_environ : environ :=
  {| clock := 1700000000;
     token := ustr "Ab3dE9xZ";
     lookup_fault := None;
     write_fault := Some 2%nat;
     remote_addr := None;
     user_agent := None |}.

(** [l] doubled [k] times: a payload of [2 ^ k] times its length. *)
Fixpoint doubled (k : nat) (l : bytes) : bytes :=
  match k with
  | O => l
  | S k' => doubled k' (l ++ l)
  end.

Definition oversize_upload : upload :=
  {| up_file := Some (ustr "big.json", doubled 24 [Byte.x20]);
     up_version := None;
     up_release_notes := None;
     up_host_url := ustr "http://localhost:10000/";
     up_framing := 300 |}.


Definition third_upload : file_data :=
  sample_data "1700000009_Zx1cV4bN.json" "config.json" "json".

(** Six registrations, one a second. *)
Definition six_uploads : list (Z * file_data) :=
  [(1700000001, sample_data "1700000001_aaaaaaaa.ini" "a.ini" "ini");
   (1700000002, sample_data "1700000002_bbbbbbbb.ini" "b.ini" "ini");
   (1700000003, sample_data "1700000003_cccccccc.ini" "c.ini" "ini");
   (1700000004, sample_data "1700000004_dddddddd.ini" "d.ini" "ini");
   (1700000005, sample_data "1700000005_eeeeeeee.ini" "e.ini" "ini");
   (1700000006, sample_data "1700000006_ffffffff.ini" "f.ini" "ini")].


End Reference.

Section App.

(** The part of [str.lower()] beyond ASCII is Python's Unicode table (with
    its context rule for the final sigma): the lowering of a non-ASCII
    character, given the text before and after it, is taken as given. *)
Variable unicode_lower : pystr -> char -> pystr -> pystr.

(** [werkzeug.utils.secure_filename]. *)
Variable secure_filename : pystr -> pystr.

Fixpoint lower_from (before s : pystr) : pystr :=
  match s with
  | [] => []
  | c :: t =>
      (if is_ascii c then [ascii_lower c] else unicode_lower before c t)
        ++ lower_from (before ++ [c]) t
  end.

(** [s.lower()]. *)
Definition lower (s : pystr) : pystr := lower_from [] s.

(** ** Configuration *)

Definition UPLOAD_FOLDER : pystr := ustr "uploads".

Definition ALLOWED_EXTENSIONS : list pystr :=
  map ustr ["txt"; "json"; "conf"; "config"; "yaml"; "yml"; "xml"; "ini";
            "cfg"; "properties"]%string.

Definition MAX_CONTENT_LENGTH : Z := 10 * 1024 * 1024.

(** ** Utility functions *)

Definition allowed_file (filename : pystr) : bool :=
  contains_char dot filename &&
  match rsplit_last dot filename with
  | Some ext => existsb (str_eqb (lower ext)) ALLOWED_EXTENSIONS
  | None => false
  end.

(** The [hashlib.sha256] object. *)
Variable sha256 : Type.
Variable sha256_new : sha256.
Variable sha256_update : sha256 -> bytes -> sha256.
Variable sha256_hexdigest : sha256 -> pystr.

(** [for byte_block in iter(lambda: f.read(n), b""): h.update(byte_block)]
    on a file with [f] still to read. *)
Equations? read_blocks (n : nat) (f : bytes) (h : sha256) : sha256
  by wf (length f) lt :=
  read_blocks n f h with inspect (take n f) := {
    | exist _ [] _ := h;
    | exist _ (b :: blk) e :=
        read_blocks n (drop n f) (sha256_update h (b :: blk)) }.
Proof.
  destruct n as [|n]; [done|]. destruct f as [|x f]; [done|].
  rewrite length_drop. simpl. lia.
Qed.

(** [None] is the [FileNotFoundError] of [open]. *)
Definition calculate_checksum (disk : gmap pystr bytes) (file_path : pystr)
    : option pystr :=
  match disk !! file_path with
  | Some data => Some (sha256_hexdigest (read_blocks 4096 data sha256_new))
  | None => None
  end.

(** [hashlib.sha256(data).hexdigest()]. *)
Definition sha256_hex (data : bytes) : pystr :=
  sha256_hexdigest (sha256_update sha256_new data).

(** ** FileHostingDB *)

Definition str_of_Z (z : Z) : pystr := ustr (pretty z).

Definition generate_unique_filename (timestamp : Z) (random_str : pystr)
    (original_filename : pystr) : pystr :=
  let ext :=
    if contains_char dot original_filename
    then default [] (rsplit_last dot original_filename)
    else [] in
  match ext with
  | _ :: _ => str_of_Z timestamp ++ [underscore] ++ random_str ++ [dot] ++ ext
  | [] => str_of_Z timestamp ++ [underscore] ++ random_str
  end.

(** The UNIQUE columns of [files]. *)
Definition files_conflict (fd : file_data) (t : tables) : bool :=
  existsb (fun r =>
    str_eqb (f_storage_path r) (fd_storage_path fd) ||
    str_eqb (f_public_url r) (fd_public_url fd) ||
    str_eqb (f_raw_url r) (fd_raw_url fd)) (files t).

Definition new_file_row (now : Z) (fd : file_data) (t : tables) : file_row :=
  {| f_id := seq_files t + 1;
     f_filename := fd_filename fd;
     f_original_filename := fd_original_filename fd;
     f_file_type := fd_file_type fd;
     f_file_size := fd_file_size fd;
     f_version := fd_version fd;
     f_storage_path := fd_storage_path fd;
     f_public_url := fd_public_url fd;
     f_raw_url := fd_raw_url fd;
     f_download_url := fd_download_url fd;
     f_release_notes := Some (fd_release_notes fd);
     f_checksum := fd_checksum fd;
     f_uploader_id := fd_uploader_id fd;
     f_uploader_name := Some (fd_uploader_name fd);
     f_created_at := now;
     f_expires_at := now + 365 * 86400;
     f_is_active := true;
     f_download_count := SqlInt 0;
     f_last_download := None |}.

Definition insert_files (now : Z) (fd : file_data) (t : tables) : tables :=
  {| files := files t ++ [new_file_row now fd t];
     file_versions := file_versions t;
     access_logs := access_logs t;
     seq_files := seq_files t + 1;
     seq_file_versions := seq_file_versions t;
     seq_access_logs := seq_access_logs t |}.

Definition new_version_row (now : Z) (fd : file_data) (t : tables)
    : version_row :=
  {| v_id := seq_file_versions t + 1;
     v_filename := fd_original_filename fd;
     v_version := fd_version fd;
     v_storage_path := fd_storage_path fd;
     v_raw_url := fd_raw_url fd;
     v_created_at := now |}.

Definition insert_file_versions (now : Z) (fd : file_data) (t : tables)
    : tables :=
  {| files := files t;
     file_versions := file_versions t ++ [new_version_row now fd t];
     access_logs := access_logs t;
     seq_files := seq_files t;
     seq_file_versions := seq_file_versions t + 1;
     seq_access_logs := seq_access_logs t |}.

Definition no_conflict (t : tables) : bool := false.

Definition add_file (flt : failure) (now : Z) (fd : file_data)
    : conn -> bool * conn :=
  try_except
    (execute flt 0 (files_conflict fd) (insert_files now fd) ;;;
     execute flt 1 no_conflict (insert_file_versions now fd) ;;;
     do_commit flt 2 ;;;
     sql_ret true)
    false.

Definition dict_of_row (r : file_row) : file_dict :=
  {| d_id := f_id r;
     d_filename := f_filename r;
     d_original_filename := f_original_filename r;
     d_file_type := f_file_type r;
     d_file_size := f_file_size r;
     d_version := f_version r;
     d_storage_path := f_storage_path r;
     d_public_url := f_public_url r;
     d_raw_url := f_raw_url r;
     d_download_url := f_download_url r;
     d_release_notes := f_release_notes r;
     d_checksum := f_checksum r;
     d_uploader_name := f_uploader_name r;
     d_created_at := f_created_at r;
     d_download_count := f_download_count r;
     d_is_active := f_is_active r |}.

Definition get_file_by_id (flt : failure) (file_id : Z)
    : conn -> option file_dict * conn :=
  try_except
    (row <- query flt 0
       (fun t => List.find (fun r => f_id r =? file_id) (files t)) ;;
     sql_ret (dict_of_row <$> row))
    None.

Definition get_file_by_filename (flt : failure) (filename : pystr)
    : conn -> option file_dict * conn :=
  try_except
    (row <- query flt 0
       (fun t => List.find (fun r => str_eqb (f_filename r) filename)
                   (files t)) ;;
     sql_ret (dict_of_row <$> row))
    None.

Definition summary_of_row (r : file_row) : file_summary :=
  {| s_id := f_id r;
     s_original_filename := f_original_filename r;
     s_file_type := f_file_type r;
     s_file_size := f_file_size r;
     s_version := f_version r;
     s_raw_url := f_raw_url r;
     s_download_url := f_download_url r;
     s_release_notes := f_release_notes r;
     s_uploader_name := f_uploader_name r;
     s_created_at := f_created_at r;
     s_download_count := f_download_count r;
     s_is_active := f_is_active r |}.

Definition get_all_files (flt : failure) : conn -> list file_summary * conn :=
  try_except
    (rows <- query flt 0 (fun t => order_by_desc f_created_at (files t)) ;;
     sql_ret (map summary_of_row rows))
    [].

Definition bump_download (now : Z) (r : file_row) : file_row :=
  {| f_id := f_id r;
     f_filename := f_filename r;
     f_original_filename := f_original_filename r;
     f_file_type := f_file_type r;
     f_file_size := f_file_size r;
     f_version := f_version r;
     f_storage_path := f_storage_path r;
     f_public_url := f_public_url r;
     f_raw_url := f_raw_url r;
     f_download_url := f_download_url r;
     f_release_notes := f_release_notes r;
     f_checksum := f_checksum r;
     f_uploader_id := f_uploader_id r;
     f_uploader_name := f_uploader_name r;
     f_created_at := f_created_at r;
     f_expires_at := f_expires_at r;
     f_is_active := f_is_active r;
     f_download_count := sql_succ (f_download_count r);
     f_last_download := Some now |}.

(** [UPDATE files SET download_count = download_count + 1,
    last_download = CURRENT_TIMESTAMP WHERE id = ?]. *)
Definition update_download (now : Z) (file_id : Z) (t : tables) : tables :=
  {| files := map (fun r => if f_id r =? file_id then bump_download now r
                            else r) (files t);
     file_versions := file_versions t;
     access_logs := access_logs t;
     seq_files := seq_files t;
     seq_file_versions := seq_file_versions t;
     seq_access_logs := seq_access_logs t |}.

Definition new_access_row (now : Z) (file_id : Z) (ip ua : option pystr)
    (action : pystr) (t : tables) : access_row :=
  {| a_id := seq_access_logs t + 1;
     a_file_id := file_id;
     a_ip_address := ip;
     a_user_agent := ua;
     a_referrer := None;
     a_action := Some action;
     a_accessed_at := now |}.

(** [INSERT INTO access_logs]: the connection never turns foreign keys on,
    so [file_id] is not checked against [files]. *)
Definition insert_access_logs (now : Z) (file_id : Z) (ip ua : option pystr)
    (action : pystr) (t : tables) : tables :=
  {| files := files t;
     file_versions := file_versions t;
     access_logs := access_logs t ++ [new_access_row now file_id ip ua action t];
     seq_files := seq_files t;
     seq_file_versions := seq_file_versions t;
     seq_access_logs := seq_access_logs t + 1 |}.

Definition record_download (flt : failure) (now : Z) (file_id : Z)
    (ip ua : option pystr) : conn -> unit * conn :=
  try_except
    (execute flt 0 no_conflict (update_download now file_id) ;;;
     execute flt 1 no_conflict
       (insert_access_logs now file_id ip ua (ustr "download")) ;;;
     do_commit flt 2)
    tt.

Definition record_view (flt : failure) (now : Z) (file_id : Z)
    (ip ua : option pystr) : conn -> unit * conn :=
  try_except
    (execute flt 0 no_conflict
       (insert_access_logs now file_id ip ua (ustr "view")) ;;;
     do_commit flt 1)
    tt.

Definition hit_of_row (r : file_row) : search_hit :=
  {| h_id := f_id r;
     h_original_filename := f_original_filename r;
     h_file_type := f_file_type r;
     h_version := f_version r;
     h_release_notes := f_release_notes r;
     h_created_at := f_created_at r;
     h_download_count := f_download_count r;
     h_raw_url := f_raw_url r |}.

(** The WHERE clause of [search_files]. *)
Definition search_where (pat : pystr) (r : file_row) : bool :=
  f_is_active r &&
  (like (Some (f_original_filename r)) pat ||
   like (Some (f_version r)) pat ||
   like (f_release_notes r) pat).

(** An over-long pattern makes the first evaluation of [LIKE] raise; with
    no row to evaluate it on the result is empty as well. *)
Definition search_files (flt : failure) (q : pystr)
    : conn -> list search_hit * conn :=
  try_except
    (let pat := [percent] ++ q ++ [percent] in
     rows <- (if like_too_long pat then sql_raise
              else query flt 0 (fun t =>
                     order_by_desc f_created_at
                       (List.filter (search_where pat) (files t)))) ;;
     sql_ret (map hit_of_row rows))
    [].

(** ** Web routes *)

(** [os.environ.get('ADMIN_ID', ...)]. *)
Variable ADMIN_ID : Z.

(** [str(dir / name)]. *)
Definition path_join (dir name : pystr) : pystr := dir ++ [slash] ++ name.

(** Flask refuses a body longer than [app.config['MAX_CONTENT_LENGTH']]:
    reading [request.files] raises [RequestEntityTooLarge], here [None]. *)
Definition request_files (r : upload) : option (option (pystr * bytes)) :=
  if MAX_CONTENT_LENGTH <? content_length r then None else Some (up_file r).

Definition file_type_of (original_filename : pystr) : pystr :=
  if contains_char dot original_filename
  then lower (default [] (rsplit_last dot original_filename))
  else ustr "txt".

Definition set_db (c : conn) (w : world) : world := {| fs := fs w; db := c |}.
Definition set_fs (disk : gmap pystr bytes) (w : world) : world :=
  {| fs := disk; db := db w |}.

(** [storage_path.unlink()] under [if storage_path.exists()]. *)
Definition unlink_if_exists (path : pystr) (disk : gmap pystr bytes)
    : gmap pystr bytes :=
  if bool_decide (is_Some (disk !! path)) then delete path disk else disk.

(** The lines [upload_file] and [api_upload] share, from
    [secure_filename] to the [file_data] dictionary: the blob is saved,
    measured and hashed, and the record is prepared. [None] is an
    exception of [stat] or [open]. *)
Definition save_upload (e : environ) (r : upload) (filename : pystr)
    (data : bytes) (uploader_name : pystr) (disk : gmap pystr bytes)
    : gmap pystr bytes * option file_data :=
  let version := default (ustr "1.0.0") (up_version r) in
  let release_notes := default [] (up_release_notes r) in
  let original_filename := secure_filename filename in
  let unique_filename :=
    generate_unique_filename (clock e) (token e) original_filename in
  let file_type := file_type_of original_filename in
  let storage_path := path_join UPLOAD_FOLDER unique_filename in
  let disk' := <[storage_path := data]> disk in
  match disk' !! storage_path, calculate_checksum disk' storage_path with
  | Some stored, Some checksum =>
      let base_url := rstrip slash (up_host_url r) in
      (disk',
       Some {| fd_filename := unique_filename;
               fd_original_filename := original_filename;
               fd_file_type := file_type;
               fd_file_size := Z.of_nat (length stored);
               fd_version := version;
               fd_storage_path := storage_path;
               fd_public_url := base_url ++ ustr "file/" ++ unique_filename;
               fd_raw_url := base_url ++ ustr "raw/" ++ unique_filename;
               fd_download_url :=
                 base_url ++ ustr "download/" ++ unique_filename;
               fd_release_notes := release_notes;
               fd_checksum := checksum;
               fd_uploader_id := ADMIN_ID;
               fd_uploader_name := uploader_name |})
  | _, _ => (disk', None)
  end.

(** The POST branch of [upload_file]. Its error pages are rendered with
    status 200; an exception that escapes the view is Flask's 500. *)
Definition upload_file (e : environ) (r : upload) (w : world)
    : response * world :=
  match request_files r with
  | None => (Abort 413, w)
  | Some None => (Page 200 NoFileSelected, w)
  | Some (Some (filename, data)) =>
      if str_eqb filename [] then (Page 200 NoFileSelected, w)
      else if negb (allowed_file filename) then (Page 200 InvalidFileType, w)
      else
        match save_upload e r filename data (ustr "Admin") (fs w) with
        | (disk, None) => (Abort 500, set_fs disk w)
        | (disk, Some fd) =>
            match add_file (write_fault e) (clock e) fd (db w) with
            | (true, c) =>
                (Page 200 (UploadSuccessful fd), {| fs := disk; db := c |})
            | (false, c) =>
                (Page 200 UploadFailed,
                 {| fs := unlink_if_exists (fd_storage_path fd) disk;
                    db := c |})
            end
        end
  end.

(** [api_upload]: the whole body sits in [try ... except Exception], so
    the oversize exception of [request.files] also ends in the 500
    answer. *)
Definition api_upload (e : environ) (r : upload) (w : world)
    : response * world :=
  match request_files r with
  | None => (Json 500 JsonException, w)
  | Some None => (Json 400 (JsonError (ustr "No file provided")), w)
  | Some (Some (filename, data)) =>
      if str_eqb filename []
      then (Json 400 (JsonError (ustr "No file selected")), w)
      else if negb (allowed_file filename)
      then (Json 400 (JsonError (ustr "File type not allowed")), w)
      else
        match save_upload e r filename data (ustr "API User") (fs w) with
        | (disk, None) => (Json 500 JsonException, set_fs disk w)
        | (disk, Some fd) =>
            match add_file (write_fault e) (clock e) fd (db w) with
            | (true, c) =>
                (Json 200 (JsonUploaded fd), {| fs := disk; db := c |})
            | (false, c) =>
                (Json 500 (JsonError (ustr "Database error")),
                 {| fs := unlink_if_exists (fd_storage_path fd) disk;
                    db := c |})
            end
        end
  end.

(** [raw_file] and [download_file] differ in how [send_file] labels the
    answer. *)
Definition serve (as_attachment : bool) (mimetype : option pystr)
    (e : environ) (filename : pystr) (w : world) : response * world :=
  match get_file_by_filename (lookup_fault e) filename (db w) with
  | (None, c) => (Plain 404 (ustr "File not found"), set_db c w)
  | (Some file_data, c) =>
      let storage_path := d_storage_path file_data in
      match fs w !! storage_path with
      | None => (Plain 404 (ustr "File not found on server"), set_db c w)
      | Some body =>
          let '(_, c') :=
            record_download (write_fault e) (clock e) (d_id file_data)
              (remote_addr e) (user_agent e) c in
          (SendFile body as_attachment (d_original_filename file_data)
             mimetype,
           set_db c' w)
      end
  end.

Definition raw_file : environ -> pystr -> world -> response * world :=
  serve false (Some (ustr "text/plain")).

Definition download_file : environ -> pystr -> world -> response * world :=
  serve true None.

(** ** The rest of the catalog and of the routes *)

(** The dictionaries of [get_file_versions]. *)
Record version_dict := {
  vd_version : pystr;
  vd_storage_path : pystr;
  vd_raw_url : pystr;
  vd_created_at : Z
}.

Definition dict_of_version (v : version_row) : version_dict :=
  {| vd_version := v_version v;
     vd_storage_path := v_storage_path v;
     vd_raw_url := v_raw_url v;
     vd_created_at := v_created_at v |}.

Definition get_file_versions (flt : failure) (filename : pystr)
    : conn -> list version_dict * conn :=
  try_except
    (rows <- query flt 0
       (fun t => order_by_desc v_created_at
                   (List.filter (fun v => str_eqb (v_filename v) filename)
                      (file_versions t))) ;;
     sql_ret (map dict_of_version rows))
    [].

(** Python's float, the value [round(total_size / (1024 * 1024), 2)] as a
    function of the byte count, and [str(path.absolute())]. *)
Variable pyfloat : Type.
Variable mb_rounded : Z -> pyfloat.
Variable absolute : pystr -> pystr.

(** The dictionary of [get_storage_usage]. *)
Record storage_usage := {
  files_count : Z;
  total_bytes : Z;
  total_mb : pyfloat;
  folder_path : pystr
}.

(** The walk of [UPLOAD_FOLDER.rglob('*')] over the regular files of the
    storage root. Reading the finite map cannot fail, so the [except]
    branch, which answers the empty dict when the walk or a [stat] raises,
    has no counterpart here. *)
Definition get_storage_usage (disk : gmap pystr bytes) : storage_usage :=
  let total_size :=
    map_fold (fun _ data n => n + Z.of_nat (length data)) 0 disk in
  let file_count := map_fold (fun _ _ n => n + 1) 0 disk in
  {| files_count := file_count;
     total_bytes := total_size;
     total_mb := mb_rounded total_size;
     folder_path := absolute UPLOAD_FOLDER |}.

(** [db.get_all_files()[:5]], the recent files of [index] and the list of
    the bot's [/files] command. *)
Definition recent_files (flt : failure) (c : conn) : list file_summary :=
  take 5 (get_all_files flt c).1.

(** [open(path, 'r', encoding='utf-8').read()]: the decoded text, or
    [None] when the bytes are not UTF-8. *)
Variable read_text : bytes -> option pystr.

(** The pages of [view_file], by what they interpolate. *)
Inductive view_page :=
| FileNotFound
| FileDetails (file_data : file_dict) (versions : list version_dict)
    (file_content : option pystr).

(** [view_file]; [versions_fault] is the fault of its [get_file_versions]
    query. *)
Definition view_file (e : environ) (versions_fault : fault) (file_id : Z)
    (w : world) : (Z * view_page) * world :=
  match get_file_by_id (lookup_fault e) file_id (db w) with
  | (None, c) => ((404, FileNotFound), set_db c w)
  | (Some file_data, c) =>
      let '(_, c1) :=
        record_view (write_fault e) (clock e) file_id (remote_addr e)
          (user_agent e) c in
      let '(versions, c2) :=
        get_file_versions versions_fault (d_original_filename file_data) c1 in
      let file_content :=
        match fs w !! d_storage_path file_data with
        | Some data =>
            Some (default (ustr "Unable to display file content")
                    (read_text data))
        | None => None
        end in
      ((200, FileDetails file_data versions file_content), set_db c2 w)
  end.

(** [api_file_info]: the JSON answer is the record or the 404 error. *)
Definition api_file_info (e : environ) (filename : pystr) (w : world)
    : (Z * option file_dict) * world :=
  match get_file_by_filename (lookup_fault e) filename (db w) with
  | (None, c) => ((404, None), set_db c w)
  | (Some file_data, c) => ((200, Some file_data), set_db c w)
  end.

(** ** Vocabulary of the properties *)

(** Whether an answer reports a stored upload. *)
Definition accepted (resp : response) : bool :=
  match resp with
  | Page _ (UploadSuccessful _) | Json _ (JsonUploaded _) => true
  | _ => false
  end.

(** The storage name and path an upload of [filename] gets. *)
Definition upload_name (e : environ) (filename : pystr) : pystr :=
  generate_unique_filename (clock e) (token e) (secure_filename filename).

Definition upload_path (e : environ) (filename : pystr) : pystr :=
  path_join UPLOAD_FOLDER (upload_name e filename).

(** Every record's [storage_path] is its [filename] under the storage
    root, as the upload handlers write them. *)
Definition wf_catalog (t : tables) : Prop :=
  Forall (fun r => f_storage_path r = path_join UPLOAD_FOLDER (f_filename r))
    (files t).

(** Some row already carries the storage path or a URL of this upload. *)
Definition upload_conflict (e : environ) (r : upload) (filename : pystr)
    (t : tables) : bool :=
  let name := upload_name e filename in
  let base_url := rstrip slash (up_host_url r) in
  existsb (fun row =>
    str_eqb (f_storage_path row) (upload_path e filename) ||
    str_eqb (f_public_url row) (base_url ++ ustr "file/" ++ name) ||
    str_eqb (f_raw_url row) (base_url ++ ustr "raw/" ++ name)) (files t).

(** What fetching an accepted upload gives back. *)
Definition round_trip (e' : environ) (data : bytes) (fd : file_data)
    (w' : world) : Prop :=
  (raw_file e' (fd_filename fd) w').1 =
    SendFile data false (fd_original_filename fd) (Some (ustr "text/plain")) /\
  (download_file e' (fd_filename fd) w').1 =
    SendFile data true (fd_original_filename fd) None /\
  fd_checksum fd = sha256_hex data /\
  exists d,
    (get_file_by_filename None (fd_filename fd) (db w')).1 = Some d /\
    d_checksum d = sha256_hex data /\
    d_file_size d = Z.of_nat (length data).

(** The access-log rows that record a download of [fid]. *)
Definition download_rows (fid : Z) (t : tables) : list access_row :=
  List.filter
    (fun a => (a_file_id a =? fid) &&
              bool_decide (a_action a = Some (ustr "download")))
    (access_logs t).


(** [q] occurs in [s], ASCII letters compared without case. *)
Fixpoint iprefix (q s : pystr) : bool :=
  match q, s with
  | [], _ => true
  | c :: q', d :: s' => (ascii_lower c =? ascii_lower d)%N && iprefix q' s'
  | _ :: _, [] => false
  end.

Fixpoint icontains (q s : pystr) : bool :=
  iprefix q s ||
  match s with
  | [] => false
  | _ :: s' => icontains q s'
  end.

(** A query without the characters [LIKE] and C strings treat
    specially. *)
Definition plain (q : pystr) : bool :=
  forallb (fun c => negb ((c =? percent) || (c =? underscore) || (c =? NUL))%N)
    q.

(** What the specification asks of a row for the query [q]. *)
Definition contains_query (q : pystr) (r : file_row) : bool :=
  f_is_active r &&
  (icontains q (c_str (f_original_filename r)) ||
   icontains q (c_str (f_version r)) ||
   match f_release_notes r with
   | Some notes => icontains q (c_str notes)
   | None => false
   end).

(** The order of the specification: newest first, and of two rows of one
    [created_at] the larger id first. *)
Definition newest_first_id_desc (a b : file_summary) : Prop :=
  s_created_at b < s_created_at a \/
  (s_created_at a = s_created_at b /\ s_id b < s_id a).

(** The catalog after two registrations within one second. *)
Definition same_second_catalog : conn :=
  (add_file None 1700000000 Reference.second_upload
     (add_file None 1700000000 Reference.first_upload empty_conn).2).2.

(** The catalog after the six registrations of [Reference.six_uploads]. *)
Definition six_uploads_catalog : conn :=
  foldl (fun c reg => (add_file None reg.1 reg.2 c).2) empty_conn
    Reference.six_uploads.


(** The access-log rows that record a view of [fid]. *)
Definition view_rows (fid : Z) (t : tables) : list access_row :=
  List.filter
    (fun a => (a_file_id a =? fid) &&
              bool_decide (a_action a = Some (ustr "view")))
    (access_logs t).

(** * Properties *)

(** ** Text *)

Lemma contains_char_elem (c : char) (s : pystr) :
  contains_char c s = true <-> c ∈ s.
Proof.
  unfold contains_char. rewrite existsb_exists. split.
  - intros (x & Hx & Heq). apply N.eqb_eq in Heq. subst.
    by apply list_elem_of_In.
  - intros H. exists c. split; [by apply list_elem_of_In | apply N.eqb_refl].
Qed.

Lemma rsplit_last_None (c : char) (s : pystr) :
  rsplit_last c s = None <-> c ∉ s.
Proof.
  induction s as [|x t IH]; simpl.
  - split; [intros _ H; inversion H | done].
  - destruct (rsplit_last c t) as [e|] eqn:E.
    + split; [done|]. intros H. exfalso.
      assert (c ∉ t) as Hn by (intros ?; apply H; by right).
      apply IH in Hn. done.
    + destruct (N.eqb_spec x c) as [->|Hne].
      * split; [done|]. intros H. exfalso. apply H. by left.
      * split; [|done]. intros _ H. apply elem_of_cons in H as [->|H]; [done|].
        by apply (proj1 IH).
Qed.

Lemma rsplit_last_Some (c : char) (s e : pystr) :
  rsplit_last c s = Some e <-> exists stem, s = stem ++ c :: e /\ c ∉ e.
Proof.
  revert e. induction s as [|x t IH]; intros e; simpl.
  - split; [done|]. intros (stem & H & _). by destruct stem.
  - destruct (rsplit_last c t) as [e'|] eqn:E.
    + split.
      * intros [= <-]. destruct (proj1 (IH e') eq_refl) as (stem & -> & Hn).
        by exists (x :: stem).
      * intros (stem & H & Hn). destruct stem as [|y stem]; simpl in H.
        -- injection H as -> ->. apply rsplit_last_None in Hn. congruence.
        -- injection H as -> ->. f_equal. symmetry.
           assert (Some e' = Some e) as [= ->]; [|done].
           apply IH. by exists stem.
    + apply rsplit_last_None in E.
      destruct (N.eqb_spec x c) as [->|Hne].
      * split.
        -- intros [= <-]. by exists [].
        -- intros (stem & H & Hn). destruct stem as [|y stem]; simpl in H.
           ++ by injection H as ->.
           ++ injection H as -> ->. exfalso. apply E.
              apply elem_of_app. right. by left.
      * split; [done|]. intros (stem & H & Hn).
        destruct stem as [|y stem]; simpl in H.
        -- injection H as -> ->. done.
        -- injection H as -> ->. exfalso. apply E.
           apply elem_of_app. right. by left.
Qed.


Lemma str_eqb_eq (a b : pystr) : str_eqb a b = true <-> a = b.
Proof. unfold str_eqb. apply bool_decide_eq_true. Qed.


(** ** The extension check *)



Lemma upload_file_not_allowed e r w filename data :
  up_file r = Some (filename, data) ->
  allowed_file filename = false ->
  accepted (upload_file e r w).1 = false /\ (upload_file e r w).2 = w.
Proof.
  intros Hf Hna. unfold upload_file, request_files. rewrite Hf.
  destruct (MAX_CONTENT_LENGTH <? content_length r); [done|].
  destruct (str_eqb filename []); [done|]. by rewrite Hna.
Qed.

Lemma api_upload_not_allowed e r w filename data :
  up_file r = Some (filename, data) ->
  allowed_file filename = false ->
  accepted (api_upload e r w).1 = false /\ (api_upload e r w).2 = w.
Proof.
  intros Hf Hna. unfold api_upload, request_files. rewrite Hf.
  destruct (MAX_CONTENT_LENGTH <? content_length r); [done|].
  destruct (str_eqb filename []); [done|]. by rewrite Hna.
Qed.

(** C10. A filename without a ['.'] fails [allowed_file], whatever else it
    contains, and both upload handlers then refuse the request with the
    storage root and the catalog exactly as they were. *)
Theorem allowed_file_without_dot (filename : pystr) :
  dot ∉ filename ->
  allowed_file filename = false /\
  forall e r w data,
    up_file r = Some (filename, data) ->
    accepted (upload_file e r w).1 = false /\ (upload_file e r w).2 = w /\
    accepted (api_upload e r w).1 = false /\ (api_upload e r w).2 = w.
Proof.
  intros Hn.
  assert (allowed_file filename = false) as Hna.
  { unfold allowed_file.
    destruct (contains_char dot filename) eqn:E; [|done].
    apply contains_char_elem in E. done. }
  split; [done|]. intros e r w data Hf.
  destruct (upload_file_not_allowed e r w _ _ Hf Hna).
  destruct (api_upload_not_allowed e r w _ _ Hf Hna). done.
Qed.


(** ** The size cap *)

(** C3. An upload whose file is longer than [MAX_CONTENT_LENGTH] is
    refused when the handler first reads [request.files]: [upload_file]
    answers 413, [api_upload] turns the same exception into its 500
    answer, and neither touches the storage root or the catalog. *)
Theorem oversize_upload_rejected e r w filename data :
  up_file r = Some (filename, data) ->
  MAX_CONTENT_LENGTH < Z.of_nat (length data) ->
  upload_file e r w = (Abort 413, w) /\
  api_upload e r w = (Json 500 JsonException, w).
Proof.
  intros Hf Hlen. unfold upload_file, api_upload, request_files.
  assert ((MAX_CONTENT_LENGTH <? content_length r) = true) as ->; [|done].
  apply Z.ltb_lt. unfold content_length. rewrite Hf. lia.
Qed.

(** ** The catalog *)

Lemma raises_None (k : nat) : raises None k = false.
Proof. done. Qed.

(** [add_file], statement by statement. *)
Lemma add_file_unfold (flt : fault) (now : Z) (fd : file_data) (c : conn) :
  add_file flt now fd c =
  if raises flt 0 || files_conflict fd (view c) then (false, c)
  else
    let t1 := insert_files now fd (view c) in
    if raises flt 1 then (false, set_view t1 c)
    else
      let t2 := insert_file_versions now fd t1 in
      if raises flt 2 then (false, set_view t2 c)
      else (true, commit (set_view t2 c)).
Proof.
  unfold add_file, try_except, sql_bind, execute, do_commit, sql_ret,
    no_conflict.
  destruct (raises flt 0 || files_conflict fd (view c)); [done|].
  simpl. destruct (raises flt 1); [done|].
  simpl. by destruct (raises flt 2).
Qed.

(** A registration that reports success has inserted one row into each of
    the two tables and committed them together. *)
Lemma add_file_true (flt : fault) (now : Z) (fd : file_data) (c c' : conn) :
  add_file flt now fd c = (true, c') ->
  files_conflict fd (view c) = false /\
  view c' = insert_file_versions now fd (insert_files now fd (view c)) /\
  durable c' = view c'.
Proof.
  rewrite add_file_unfold.
  destruct (raises flt 0); [done|].
  destruct (files_conflict fd (view c)); [done|]. simpl.
  destruct (raises flt 1); [done|]. destruct (raises flt 2); [done|].
  by intros [= <-].
Qed.

Lemma add_file_no_fault (now : Z) (fd : file_data) (c : conn) :
  files_conflict fd (view c) = false ->
  add_file None now fd c =
  (true,
   commit (set_view
     (insert_file_versions now fd (insert_files now fd (view c))) c)).
Proof. intros H. rewrite add_file_unfold. by rewrite H. Qed.

(** A registration that reports failure has committed nothing itself. *)
Lemma add_file_false_durable (flt : fault) (now : Z) (fd : file_data)
    (c c' : conn) :
  add_file flt now fd c = (false, c') -> durable c' = durable c.
Proof.
  rewrite add_file_unfold.
  destruct (raises flt 0 || files_conflict fd (view c)); [by intros [= <-]|].
  simpl. destruct (raises flt 1); [by intros [= <-]|].
  destruct (raises flt 2); [by intros [= <-]|]. done.
Qed.

Lemma get_file_by_filename_unfold (flt : fault) (name : pystr) (c : conn) :
  get_file_by_filename flt name c =
  (if raises flt 0 then None
   else dict_of_row <$>
          List.find (fun r => str_eqb (f_filename r) name) (files (view c)),
   c).
Proof.
  unfold get_file_by_filename, try_except, sql_bind, query, sql_ret.
  by destruct (raises flt 0).
Qed.

Lemma get_file_by_id_unfold (flt : fault) (file_id : Z) (c : conn) :
  get_file_by_id flt file_id c =
  (if raises flt 0 then None
   else dict_of_row <$>
          List.find (fun r => f_id r =? file_id) (files (view c)),
   c).
Proof.
  unfold get_file_by_id, try_except, sql_bind, query, sql_ret.
  by destruct (raises flt 0).
Qed.

Lemma record_download_unfold (flt : fault) (now fid : Z)
    (ip ua : option pystr) (c : conn) :
  (record_download flt now fid ip ua c).2 =
  if raises flt 0 then c
  else
    let t1 := update_download now fid (view c) in
    if raises flt 1 then set_view t1 c
    else
      let t2 := insert_access_logs now fid ip ua (ustr "download") t1 in
      if raises flt 2 then set_view t2 c
      else commit (set_view t2 c).
Proof.
  unfold record_download, try_except, sql_bind, execute, do_commit,
    no_conflict.
  destruct (raises flt 0); [done|]. simpl.
  destruct (raises flt 1); [done|]. simpl.
  by destruct (raises flt 2).
Qed.

Lemma find_app_last {A} (P : A -> bool) (l : list A) (x : A) :
  (forall y, y ∈ l -> P y = false) -> P x = true ->
  List.find P (l ++ [x]) = Some x.
Proof.
  intros Hl Hx. induction l as [|y l IH]; simpl.
  - by rewrite Hx.
  - rewrite (Hl y) by left. apply IH. intros z Hz. apply Hl. by right.
Qed.

(** ** Requests for files that are not there *)

Lemma set_db_same (w : world) : set_db (db w) w = w.
Proof. by destruct w. Qed.

Lemma serve_not_found (att : bool) (mt : option pystr) (e : environ)
    (filename : pystr) (w : world) :
  (forall row, row ∈ files (view (db w)) -> f_filename row <> filename) \/
  (exists row,
     List.find (fun r => str_eqb (f_filename r) filename)
       (files (view (db w))) = Some row /\
     fs w !! f_storage_path row = None) ->
  status_of (serve att mt e filename w).1 = 404 /\
  (serve att mt e filename w).2 = w.
Proof.
  intros H. unfold serve. rewrite get_file_by_filename_unfold.
  destruct (raises (lookup_fault e) 0); [by rewrite set_db_same|].
  destruct H as [H|(row & Hfind & Hfs)].
  - destruct (List.find _ _) as [row|] eqn:E; simpl;
      [|by rewrite set_db_same].
    apply find_some in E as [Hin Heq]. apply str_eqb_eq in Heq.
    exfalso. apply (H row); [by apply list_elem_of_In | done].
  - rewrite Hfind. simpl. rewrite Hfs. by rewrite set_db_same.
Qed.

(** C9. When no catalog record carries the requested storage name, or the
    record found points to a path with no file, [raw_file] and
    [download_file] answer 404 and leave the world as it was: no counter,
    no [last_download], no access-log row changes. *)
Theorem missing_file_no_download (e : environ) (filename : pystr)
    (w : world) :
  (forall row, row ∈ files (view (db w)) -> f_filename row <> filename) \/
  (exists row,
     List.find (fun r => str_eqb (f_filename r) filename)
       (files (view (db w))) = Some row /\
     fs w !! f_storage_path row = None) ->
  status_of (raw_file e filename w).1 = 404 /\
  (raw_file e filename w).2 = w /\
  status_of (download_file e filename w).1 = 404 /\
  (download_file e filename w).2 = w.
Proof.
  intros H. unfold raw_file, download_file.
  destruct (serve_not_found false (Some (ustr "text/plain")) e filename w H).
  destruct (serve_not_found true None e filename w H). done.
Qed.

(** ** Downloads *)

Lemma record_download_view (now fid : Z) (ip ua : option pystr) (c : conn) :
  let c' := (record_download None now fid ip ua c).2 in
  view c' =
    insert_access_logs now fid ip ua (ustr "download")
      (update_download now fid (view c)) /\
  durable c' = view c'.
Proof. by rewrite record_download_unfold. Qed.



Lemma record_download_rows (now fid : Z) (ip ua : option pystr) (c : conn) :
  download_rows fid (view (record_download None now fid ip ua c).2) =
  download_rows fid (view c) ++
  [new_access_row now fid ip ua (ustr "download")
     (update_download now fid (view c))].
Proof.
  destruct (record_download_view now fid ip ua c) as [-> _].
  unfold download_rows. simpl. rewrite List.filter_app. simpl.
  by rewrite Z.eqb_refl.
Qed.




(** ** Listing *)

Section OrderBy.

Context {A : Type} (key : A -> Z).

Lemma insert_desc_perm (x : A) (l : list A) : insert_desc key x l ≡ₚ x :: l.
Proof.
  induction l as [|y t IH]; [done|]. simpl.
  destruct (key x <? key y); [|done].
  rewrite IH. apply perm_swap.
Qed.

Lemma order_by_desc_perm (l : list A) : order_by_desc key l ≡ₚ l.
Proof.
  induction l as [|x t IH]; [done|]. simpl.
  rewrite insert_desc_perm. by rewrite IH.
Qed.

Lemma insert_desc_sorted (x : A) (l : list A) :
  StronglySorted (key_desc key) l -> StronglySorted (key_desc key) (insert_desc key x l).
Proof.
  induction l as [|y t IH]; intros Hs; simpl.
  - repeat constructor.
  - apply StronglySorted_inv in Hs as [Ht Hy].
    destruct (Z.ltb_spec (key x) (key y)) as [Hlt|Hge].
    + constructor; [by apply IH|].
      rewrite insert_desc_perm. constructor; [unfold key_desc; lia | done].
    + constructor; [by constructor|].
      constructor; [done|].
      eapply Forall_impl; [exact Hy|]. unfold key_desc. intros z. simpl. lia.
Qed.

Lemma order_by_desc_sorted (l : list A) :
  StronglySorted (key_desc key) (order_by_desc key l).
Proof.
  induction l as [|x t IH]; simpl; [constructor|].
  by apply insert_desc_sorted.
Qed.

(** Rows of one key come out in the order they went in. *)
Lemma insert_desc_stable (k : Z) (x : A) (l : list A) :
  List.filter (fun r => key r =? k) (insert_desc key x l) =
  List.filter (fun r => key r =? k) (x :: l).
Proof.
  induction l as [|y t IH]; [done|]. simpl.
  destruct (Z.ltb_spec (key x) (key y)) as [Hlt|Hge]; [|done].
  simpl. rewrite IH. simpl.
  destruct (Z.eqb_spec (key x) k), (Z.eqb_spec (key y) k); try done. lia.
Qed.

Lemma order_by_desc_stable (k : Z) (l : list A) :
  List.filter (fun r => key r =? k) (order_by_desc key l) =
  List.filter (fun r => key r =? k) l.
Proof.
  induction l as [|x t IH]; [done|]. simpl.
  rewrite insert_desc_stable. simpl. by rewrite IH.
Qed.

End OrderBy.

Lemma get_all_files_unfold (c : conn) :
  get_all_files None c =
  (map summary_of_row (order_by_desc f_created_at (files (view c))), c).
Proof. done. Qed.

(** C7, as the code has it. [get_all_files] returns the summaries of all
    rows of [files], newest first by [created_at]; rows of one
    [created_at] keep the order of their insertion, the older id first:
    the query names no second sort key. *)
Theorem get_all_files_newest_first (c : conn) :
  exists rows,
    get_all_files None c = (map summary_of_row rows, c) /\
    rows ≡ₚ files (view c) /\
    StronglySorted (key_desc f_created_at) rows /\
    forall t,
      List.filter (fun r => f_created_at r =? t) rows =
      List.filter (fun r => f_created_at r =? t) (files (view c)).
Proof.
  exists (order_by_desc f_created_at (files (view c))).
  split; [apply get_all_files_unfold|]. split; [apply order_by_desc_perm|].
  split; [apply order_by_desc_sorted|].
  intros t. apply order_by_desc_stable.
Qed.

(** C7 at a counterexample. Two uploads registered in the same second
    are listed older id first, not in descending id. *)
Lemma get_all_files_ties_ascending :
  map s_id (get_all_files None same_second_catalog).1 = [1; 2] /\
  map s_created_at (get_all_files None same_second_catalog).1 =
    [1700000000; 1700000000] /\
  ~ StronglySorted newest_first_id_desc
      (get_all_files None same_second_catalog).1.
Proof.
  split; [by vm_compute|]. split; [by vm_compute|].
  intros Hs.
  assert (exists a b l, (get_all_files None same_second_catalog).1 = a :: b :: l
            /\ s_id a = 1 /\ s_id b = 2 /\ s_created_at a = s_created_at b)
    as (a & b & l & Heq & Ha & Hb & Hab).
  { vm_compute. eexists _, _, _. split; [reflexivity|]. done. }
  rewrite Heq in Hs. apply StronglySorted_inv in Hs as [_ Hs].
  apply Forall_cons in Hs as [[Hlt|[_ Hlt]] _]; lia.
Qed.

(** ** Search *)

Lemma like_char_eq_lower (c d : char) :
  like_char_eq c d = (ascii_lower c =? ascii_lower d)%N.
Proof.
  unfold like_char_eq, ascii_lower, is_ascii, is_ascii_upper.
  destruct (N.eqb_spec c d) as [->|Hne]; simpl.
  { symmetry. apply N.eqb_refl. }
  destruct (N.leb_spec 65 c), (N.leb_spec c 90), (N.leb_spec 65 d),
    (N.leb_spec d 90), (N.ltb_spec c 128), (N.ltb_spec d 128); simpl;
    try lia;
    match goal with
    | |- _ = (?a =? ?b)%N => destruct (N.eqb_spec a b)
    end; try done; try lia.
Qed.

Lemma iprefix_spec (q s : pystr) :
  iprefix q s = true <->
  exists m rest, s = m ++ rest /\ map ascii_lower m = map ascii_lower q.
Proof.
  revert s. induction q as [|c q IH]; intros s; simpl.
  - split; [|done]. intros _. by exists [], s.
  - destruct s as [|d s].
    + split; [done|]. intros (m & rest & H & Hm).
      destruct m; [done|]. done.
    + rewrite andb_true_iff, IH, N.eqb_eq. split.
      * intros (Hc & m & rest & -> & Hm). exists (d :: m), rest.
        simpl. by rewrite Hm, Hc.
      * intros (m & rest & H & Hm). destruct m as [|d' m]; [done|].
        simpl in *. injection H as <- ->. injection Hm as Hd Hm.
        split; [done|]. by exists m, rest.
Qed.

Lemma icontains_spec (q s : pystr) :
  icontains q s = true <->
  exists pre m post,
    s = pre ++ m ++ post /\ map ascii_lower m = map ascii_lower q.
Proof.
  induction s as [|d s IH]; simpl.
  - rewrite orb_false_r, iprefix_spec. split.
    + intros (m & rest & H & Hm). by exists [], m, rest.
    + intros (pre & m & post & H & Hm).
      destruct pre; [|done]. by exists m, post.
  - rewrite orb_true_iff, iprefix_spec, IH. split.
    + intros [(m & rest & H & Hm)|(pre & m & post & -> & Hm)].
      * by exists [], m, rest.
      * by exists (d :: pre), m, post.
    + intros (pre & m & post & H & Hm). destruct pre as [|x pre].
      * left. by exists m, post.
      * right. simpl in H. injection H as -> ->. by exists pre, m, post.
Qed.

(** [%] absorbs any prefix of the text. *)
Lemma like_match_percent (p s : pystr) :
  like_match (percent :: p) s =
  like_match p s ||
  match s with
  | [] => false
  | _ :: s' => like_match (percent :: p) s'
  end.
Proof. by destruct s. Qed.

Lemma like_match_percent_end (s : pystr) : like_match [percent] s = true.
Proof.
  induction s as [|d s IH]; [done|].
  rewrite like_match_percent. rewrite IH. apply orb_true_r.
Qed.

Lemma like_match_literal (c : char) (p s : pystr) :
  c <> percent -> c <> underscore ->
  like_match (c :: p) s =
  match s with
  | [] => false
  | d :: s' => (ascii_lower c =? ascii_lower d)%N && like_match p s'
  end.
Proof.
  intros Hp Hu. simpl.
  destruct (N.eqb_spec c percent) as [|_]; [done|].
  destruct s as [|d s']; [done|].
  destruct (N.eqb_spec c underscore) as [|_]; [done|].
  simpl. by rewrite like_char_eq_lower.
Qed.

Lemma plain_cons (c : char) (q : pystr) :
  plain (c :: q) = true ->
  c <> percent /\ c <> underscore /\ c <> NUL /\ plain q = true.
Proof.
  unfold plain. simpl. intros H. apply andb_true_iff in H as [Hc Hq].
  apply negb_true_iff in Hc.
  destruct (N.eqb_spec c percent), (N.eqb_spec c underscore),
    (N.eqb_spec c NUL); done.
Qed.

Lemma like_match_plain_prefix (q s : pystr) :
  plain q = true -> like_match (q ++ [percent]) s = iprefix q s.
Proof.
  revert s. induction q as [|c q IH]; intros s Hq.
  - apply like_match_percent_end.
  - apply plain_cons in Hq as (Hp & Hu & _ & Hq).
    change ((c :: q) ++ [percent]) with (c :: (q ++ [percent])).
    rewrite like_match_literal by done.
    destruct s as [|d s]; [done|]. simpl. by rewrite IH.
Qed.

Lemma like_match_plain (q s : pystr) :
  plain q = true ->
  like_match ([percent] ++ q ++ [percent]) s = icontains q s.
Proof.
  intros Hq. induction s as [|d s IH].
  - change ([percent] ++ q ++ [percent]) with (percent :: (q ++ [percent])).
    rewrite like_match_percent, like_match_plain_prefix by done.
    simpl. by destruct q.
  - change ([percent] ++ q ++ [percent]) with (percent :: (q ++ [percent]))
      in *.
    rewrite like_match_percent, like_match_plain_prefix by done.
    rewrite IH. done.
Qed.

Lemma c_str_plain (q : pystr) : plain q = true -> c_str q = q.
Proof.
  induction q as [|c q IH]; [done|]. intros Hq.
  apply plain_cons in Hq as (_ & _ & Hn & Hq). simpl.
  destruct (N.eqb_spec c NUL); [done|]. by rewrite IH.
Qed.

Lemma c_str_app_plain (q rest : pystr) :
  plain q = true -> c_str (q ++ rest) = q ++ c_str rest.
Proof.
  induction q as [|c q IH]; [done|]. intros Hq.
  apply plain_cons in Hq as (_ & _ & Hn & Hq). simpl.
  destruct (N.eqb_spec c NUL); [done|]. by rewrite IH.
Qed.

(** For a plain query, [LIKE '%q%'] is containment in the text up to its
    first NUL. *)
Lemma like_plain (value : option pystr) (q : pystr) :
  plain q = true ->
  like value ([percent] ++ q ++ [percent]) =
  match value with
  | Some s => icontains q (c_str s)
  | None => false
  end.
Proof.
  intros Hq. destruct value as [s|]; [|done]. unfold like.
  change (c_str ([percent] ++ q ++ [percent]))
    with (percent :: c_str (q ++ [percent])).
  rewrite c_str_app_plain by done.
  change (c_str [percent]) with [percent].
  by apply like_match_plain.
Qed.

Lemma c_str_no_nul (s : pystr) : NUL ∉ s -> c_str s = s.
Proof.
  induction s as [|c s IH]; [done|]. intros Hn. simpl.
  destruct (N.eqb_spec c NUL) as [->|_].
  - exfalso. apply Hn. by left.
  - rewrite IH; [done|]. intros H. apply Hn. by right.
Qed.

Lemma utf8_length_app (a b : pystr) :
  utf8_length (a ++ b) = utf8_length a + utf8_length b.
Proof.
  induction a as [|c a IH]; [done|]. simpl. unfold utf8_length in *.
  simpl. rewrite IH. lia.
Qed.

Lemma search_files_unfold (q : pystr) (c : conn) :
  utf8_length q + 2 <= SQLITE_MAX_LIKE_PATTERN_LENGTH ->
  search_files None q c =
  (map hit_of_row
     (order_by_desc f_created_at
        (List.filter (search_where ([percent] ++ q ++ [percent]))
           (files (view c)))),
   c).
Proof.
  intros Hlen. unfold search_files, try_except, sql_bind.
  assert (like_too_long ([percent] ++ q ++ [percent]) = false) as ->; [|done].
  unfold like_too_long. apply Z.ltb_ge.
  rewrite !utf8_length_app. change (utf8_length [percent]) with 1. lia.
Qed.

Lemma search_where_plain (q : pystr) (r : file_row) :
  plain q = true ->
  search_where ([percent] ++ q ++ [percent]) r = contains_query q r.
Proof.
  intros Hq. unfold search_where, contains_query.
  by rewrite !like_plain.
Qed.

Lemma filter_ext_eq {A} (f g : A -> bool) (l : list A) :
  (forall x, f x = g x) -> List.filter f l = List.filter g l.
Proof. intros H. apply List.filter_ext. exact H. Qed.

Lemma search_where_empty (r : file_row) :
  search_where ([percent] ++ [] ++ [percent]) r = f_is_active r.
Proof.
  unfold search_where, like.
  change (c_str ([percent] ++ [] ++ [percent])) with [percent; percent].
  rewrite like_match_percent, like_match_percent_end.
  by destruct (f_is_active r).
Qed.

(** C6, as the code has it. For a query of at most 49998 bytes without
    [%], [_] and NUL, [search_files] returns exactly the active rows whose
    [original_filename], [version] or [release_notes], read up to its
    first NUL, contains the query with ASCII letters compared without
    case, newest first; the empty query returns every active row. *)
Theorem search_files_plain_query :
  (forall q c,
     plain q = true ->
     utf8_length q + 2 <= SQLITE_MAX_LIKE_PATTERN_LENGTH ->
     exists rows,
       search_files None q c = (map hit_of_row rows, c) /\
       rows ≡ₚ List.filter (contains_query q) (files (view c)) /\
       StronglySorted (key_desc f_created_at) rows) /\
  (forall c,
     exists rows,
       search_files None [] c = (map hit_of_row rows, c) /\
       rows ≡ₚ List.filter f_is_active (files (view c)) /\
       StronglySorted (key_desc f_created_at) rows) /\
  (forall s, NUL ∉ s -> c_str s = s).
Proof.
  split; [|split].
  - intros q c Hq Hlen.
    exists (order_by_desc f_created_at
              (List.filter (contains_query q) (files (view c)))).
    split; [|split].
    + rewrite search_files_unfold by done. do 2 f_equal.
      f_equal. apply filter_ext_eq. intros r. by apply search_where_plain.
    + apply order_by_desc_perm.
    + apply order_by_desc_sorted.
  - intros c.
    exists (order_by_desc f_created_at
              (List.filter f_is_active (files (view c)))).
    split; [|split].
    + rewrite search_files_unfold by (vm_compute; congruence).
      do 3 f_equal. apply filter_ext_eq, search_where_empty.
    + apply order_by_desc_perm.
    + apply order_by_desc_sorted.
  - apply c_str_no_nul.
Qed.

(** C6 at a counterexample. The query ["_"] finds a record none of whose
    fields contains an underscore: [LIKE] reads it as any one character. *)
Lemma search_files_underscore :
  let c := (add_file None 1700000000 Reference.second_upload empty_conn).2 in
  map h_id (search_files None (ustr "_") c).1 = [1] /\
  List.filter (contains_query (ustr "_")) (files (view c)) = [] /\
  Forall (fun r =>
    (underscore ∉ f_original_filename r) /\ (underscore ∉ f_version r) /\
    f_release_notes r = Some []) (files (view c)).
Proof.
  split; [by vm_compute|]. split; [by vm_compute|].
  vm_compute. constructor; [|constructor].
  split; [|split]; [| |done];
    intros H; apply contains_char_elem in H; by vm_compute in H.
Qed.

(** ** Uploads *)

Lemma save_upload_unfold e r filename data who disk :
  exists fd,
    save_upload e r filename data who disk =
      (<[upload_path e filename := data]> disk, Some fd) /\
    fd_filename fd = upload_name e filename /\
    fd_original_filename fd = secure_filename filename /\
    fd_storage_path fd = upload_path e filename /\
    fd_file_size fd = Z.of_nat (length data) /\
    fd_checksum fd = sha256_hexdigest (read_blocks 4096 data sha256_new) /\
    fd_public_url fd =
      rstrip slash (up_host_url r) ++ ustr "file/" ++ upload_name e filename /\
    fd_raw_url fd =
      rstrip slash (up_host_url r) ++ ustr "raw/" ++ upload_name e filename.
Proof.
  unfold save_upload, calculate_checksum.
  fold (upload_name e filename). fold (upload_path e filename).
  rewrite !lookup_insert_eq. eexists. split; [reflexivity|]. done.
Qed.

Lemma files_conflict_upload e r filename data who disk disk' fd t :
  save_upload e r filename data who disk = (disk', Some fd) ->
  files_conflict fd t = upload_conflict e r filename t.
Proof.
  intros H.
  destruct (save_upload_unfold e r filename data who disk)
    as (fd' & Heq & _ & _ & Hp & _ & _ & Hpub & Hraw).
  rewrite Heq in H. injection H as _ <-.
  unfold files_conflict, upload_conflict. by rewrite Hp, Hpub, Hraw.
Qed.

(** What an accepting answer of a handler implies. *)
Lemma upload_file_accepted e r w :
  accepted (upload_file e r w).1 = true ->
  exists filename data fd c',
    up_file r = Some (filename, data) /\
    filename <> [] /\
    allowed_file filename = true /\
    content_length r <= MAX_CONTENT_LENGTH /\
    save_upload e r filename data (ustr "Admin") (fs w) =
      (<[upload_path e filename := data]> (fs w), Some fd) /\
    add_file (write_fault e) (clock e) fd (db w) = (true, c') /\
    upload_file e r w =
      (Page 200 (UploadSuccessful fd),
       {| fs := <[upload_path e filename := data]> (fs w); db := c' |}).
Proof.
  unfold upload_file, request_files.
  destruct (Z.ltb_spec MAX_CONTENT_LENGTH (content_length r)); [done|].
  destruct (up_file r) as [[filename data]|] eqn:Hf; [|done].
  destruct (str_eqb filename []) eqn:Hne; [done|].
  destruct (allowed_file filename) eqn:Ha; [|done]. simpl.
  destruct (save_upload_unfold e r filename data (ustr "Admin") (fs w))
    as (fd & Hs & _).
  rewrite Hs.
  destruct (add_file _ _ fd (db w)) as [[] c'] eqn:Hadd; [|done].
  intros _. exists filename, data, fd, c'.
  apply bool_decide_eq_false in Hne. done.
Qed.

Lemma api_upload_accepted e r w :
  accepted (api_upload e r w).1 = true ->
  exists filename data fd c',
    up_file r = Some (filename, data) /\
    filename <> [] /\
    allowed_file filename = true /\
    content_length r <= MAX_CONTENT_LENGTH /\
    save_upload e r filename data (ustr "API User") (fs w) =
      (<[upload_path e filename := data]> (fs w), Some fd) /\
    add_file (write_fault e) (clock e) fd (db w) = (true, c') /\
    api_upload e r w =
      (Json 200 (JsonUploaded fd),
       {| fs := <[upload_path e filename := data]> (fs w); db := c' |}).
Proof.
  unfold api_upload, request_files.
  destruct (Z.ltb_spec MAX_CONTENT_LENGTH (content_length r)); [done|].
  destruct (up_file r) as [[filename data]|] eqn:Hf; [|done].
  destruct (str_eqb filename []) eqn:Hne; [done|].
  destruct (allowed_file filename) eqn:Ha; [|done]. simpl.
  destruct (save_upload_unfold e r filename data (ustr "API User") (fs w))
    as (fd & Hs & _).
  rewrite Hs.
  destruct (add_file _ _ fd (db w)) as [[] c'] eqn:Hadd; [|done].
  intros _. exists filename, data, fd, c'.
  apply bool_decide_eq_false in Hne. done.
Qed.

(** A valid upload that meets no fault and no taken name is accepted. *)
Lemma upload_valid_accepted e r w filename data :
  up_file r = Some (filename, data) ->
  filename <> [] ->
  allowed_file filename = true ->
  content_length r <= MAX_CONTENT_LENGTH ->
  write_fault e = None ->
  upload_conflict e r filename (view (db w)) = false ->
  accepted (upload_file e r w).1 = true /\
  accepted (api_upload e r w).1 = true.
Proof.
  intros Hf Hne Ha Hlen Hflt Hfresh.
  unfold upload_file, api_upload, request_files. rewrite Hf.
  destruct (Z.ltb_spec MAX_CONTENT_LENGTH (content_length r)); [lia|].
  assert (str_eqb filename [] = false) as ->.
  { apply bool_decide_eq_false. done. }
  rewrite Ha. simpl. rewrite Hflt. split.
  - destruct (save_upload_unfold e r filename data (ustr "Admin") (fs w))
      as (fd & Hs & _).
    rewrite Hs, add_file_no_fault; [done|].
    by rewrite (files_conflict_upload _ _ _ _ _ _ _ _ _ Hs).
  - destruct (save_upload_unfold e r filename data (ustr "API User") (fs w))
      as (fd & Hs & _).
    rewrite Hs, add_file_no_fault; [done|].
    by rewrite (files_conflict_upload _ _ _ _ _ _ _ _ _ Hs).
Qed.

(** After a successful registration the record is the one its storage
    name finds, and its blob is what the raw and download routes send. *)
Lemma registered_lookup (flt : fault) now fd c c' :
  wf_catalog (view c) ->
  fd_storage_path fd = path_join UPLOAD_FOLDER (fd_filename fd) ->
  add_file flt now fd c = (true, c') ->
  List.find (fun r => str_eqb (f_filename r) (fd_filename fd))
    (files (view c')) = Some (new_file_row now fd (view c)).
Proof.
  intros Hwf Hpath Hadd.
  apply add_file_true in Hadd as (Hfresh & -> & _). simpl.
  apply find_app_last; [|by apply str_eqb_eq].
  intros row Hrow. apply bool_decide_eq_false. intros Hname.
  unfold files_conflict in Hfresh.
  assert (existsb (fun r =>
            str_eqb (f_storage_path r) (fd_storage_path fd) ||
            str_eqb (f_public_url r) (fd_public_url fd) ||
            str_eqb (f_raw_url r) (fd_raw_url fd)) (files (view c)) = true);
    [|congruence].
  apply existsb_exists. exists row. split; [by apply list_elem_of_In|].
  unfold wf_catalog in Hwf. rewrite Forall_forall in Hwf.
  assert (str_eqb (f_storage_path row) (fd_storage_path fd) = true) as ->;
    [|done].
  apply str_eqb_eq. rewrite (Hwf row Hrow), Hpath. by rewrite Hname.
Qed.

Lemma registered_served att mt e' (flt : fault) now fd c c' disk data :
  wf_catalog (view c) ->
  fd_storage_path fd = path_join UPLOAD_FOLDER (fd_filename fd) ->
  add_file flt now fd c = (true, c') ->
  disk !! fd_storage_path fd = Some data ->
  lookup_fault e' = None ->
  (serve att mt e' (fd_filename fd) {| fs := disk; db := c' |}).1 =
    SendFile data att (fd_original_filename fd) mt /\
  exists d,
    (get_file_by_filename None (fd_filename fd) c').1 = Some d /\
    d_checksum d = fd_checksum fd /\
    d_filename d = fd_filename fd /\
    d_file_size d = fd_file_size fd.
Proof.
  intros Hwf Hpath Hadd Hdisk Hflt.
  pose proof (registered_lookup _ _ _ _ _ Hwf Hpath Hadd) as Hfind.
  split.
  - unfold serve. rewrite get_file_by_filename_unfold, Hflt. simpl.
    rewrite Hfind. simpl. rewrite Hdisk.
    by destruct (record_download _ _ _ _ _ _).
  - rewrite get_file_by_filename_unfold. simpl. rewrite Hfind. simpl.
    by eexists.
Qed.

(** The invariant holds of the empty catalog and every handler keeps
    it. *)
Lemma wf_catalog_empty : wf_catalog empty_tables.
Proof. constructor. Qed.






(** ** Failed registrations *)

Lemma delete_saved (disk : gmap pystr bytes) (path : pystr) (data : bytes) :
  unlink_if_exists path (<[path := data]> disk) = delete path disk.
Proof.
  unfold unlink_if_exists. rewrite lookup_insert_eq.
  rewrite bool_decide_eq_true_2 by by eexists.
  apply delete_insert_eq.
Qed.

(** X19. When the blob has been written and [add_file] reports failure,
    [upload_file] and [api_upload] delete the blob before they answer
    with the error: no file of that request remains in the storage root,
    every other path is as before, and the call has committed nothing to
    the catalog. *)
Theorem failed_registration_deletes_blob e r w filename data :
  up_file r = Some (filename, data) ->
  filename <> [] ->
  allowed_file filename = true ->
  content_length r <= MAX_CONTENT_LENGTH ->
  (forall fd,
     (save_upload e r filename data (ustr "Admin") (fs w)).2 = Some fd ->
     (add_file (write_fault e) (clock e) fd (db w)).1 = false ->
     (save_upload e r filename data (ustr "Admin") (fs w)).1
       !! upload_path e filename = Some data /\
     (upload_file e r w).1 = Page 200 UploadFailed /\
     fs (upload_file e r w).2 = delete (upload_path e filename) (fs w) /\
     fs (upload_file e r w).2 !! upload_path e filename = None /\
     durable (db (upload_file e r w).2) = durable (db w)) /\
  (forall fd,
     (save_upload e r filename data (ustr "API User") (fs w)).2 = Some fd ->
     (add_file (write_fault e) (clock e) fd (db w)).1 = false ->
     (save_upload e r filename data (ustr "API User") (fs w)).1
       !! upload_path e filename = Some data /\
     (api_upload e r w).1 = Json 500 (JsonError (ustr "Database error")) /\
     fs (api_upload e r w).2 = delete (upload_path e filename) (fs w) /\
     fs (api_upload e r w).2 !! upload_path e filename = None /\
     durable (db (api_upload e r w).2) = durable (db w)).
Proof.
  intros Hf Hne Ha Hlen.
  assert (str_eqb filename [] = false) as Hne'
    by (by apply bool_decide_eq_false).
  split; intros fd Hsave Hadd.
  - unfold upload_file, request_files. rewrite Hf.
    destruct (Z.ltb_spec MAX_CONTENT_LENGTH (content_length r)); [lia|].
    rewrite Hne', Ha. simpl.
    destruct (save_upload_unfold e r filename data (ustr "Admin") (fs w))
      as (fd' & Hs & _ & _ & Hp & _).
    rewrite Hs in *. simpl in Hsave. injection Hsave as ->.
    destruct (add_file _ _ fd (db w)) as [[] c'] eqn:Hadd'; [done|].
    simpl. rewrite Hp, delete_saved, lookup_insert_eq, lookup_delete_eq.
    by rewrite (add_file_false_durable _ _ _ _ _ Hadd').
  - unfold api_upload, request_files. rewrite Hf.
    destruct (Z.ltb_spec MAX_CONTENT_LENGTH (content_length r)); [lia|].
    rewrite Hne', Ha. simpl.
    destruct (save_upload_unfold e r filename data (ustr "API User") (fs w))
      as (fd' & Hs & _ & _ & Hp & _).
    rewrite Hs in *. simpl in Hsave. injection Hsave as ->.
    destruct (add_file _ _ fd (db w)) as [[] c'] eqn:Hadd'; [done|].
    simpl. rewrite Hp, delete_saved, lookup_insert_eq, lookup_delete_eq.
    by rewrite (add_file_false_durable _ _ _ _ _ Hadd').
Qed.

(** ** The checksum *)

Section Checksum.

(** What [hashlib] promises of [update]: feeding the data in pieces is
    feeding their concatenation. *)
Hypothesis sha256_update_nil : forall h, sha256_update h [] = h.
Hypothesis sha256_update_app :
  forall h a b,
    sha256_update (sha256_update h a) b = sha256_update h (a ++ b).

Lemma read_blocks_update (n : nat) (f : bytes) (h : sha256) :
  (0 < n)%nat -> read_blocks n f h = sha256_update h f.
Proof.
  intros Hn. funelim (read_blocks n f h).
  - destruct n as [|n]; [lia|]. destruct f as [|x f]; [|done].
    by rewrite sha256_update_nil.
  - match goal with IH : _ -> read_blocks _ _ _ = _ |- _ => rewrite IH end;
      [|done].
    rewrite sha256_update_app. rewrite <- e. by rewrite take_drop.
Qed.

Lemma calculate_checksum_stored (disk : gmap pystr bytes) (path : pystr)
    (data : bytes) :
  disk !! path = Some data ->
  calculate_checksum disk path = Some (sha256_hex data).
Proof.
  intros H. unfold calculate_checksum, sha256_hex. rewrite H.
  by rewrite read_blocks_update by lia.
Qed.

Lemma saved_round_trip e e' r filename data who w fd c' :
  wf_catalog (view (db w)) ->
  lookup_fault e' = None ->
  save_upload e r filename data who (fs w) =
    (<[upload_path e filename := data]> (fs w), Some fd) ->
  add_file (write_fault e) (clock e) fd (db w) = (true, c') ->
  fd_filename fd = upload_name e filename /\
  round_trip e' data fd
    {| fs := <[upload_path e filename := data]> (fs w); db := c' |}.
Proof.
  intros Hwf Hflt Hsave Hadd.
  destruct (save_upload_unfold e r filename data who (fs w))
    as (fd' & Hs & Hn & _ & Hp & Hsz & Hck & _).
  rewrite Hs in Hsave. injection Hsave as ->.
  assert (fd_storage_path fd = path_join UPLOAD_FOLDER (fd_filename fd))
    as Hpath by (by rewrite Hp, Hn).
  assert (<[upload_path e filename := data]> (fs w) !! fd_storage_path fd
          = Some data) as Hdisk by (rewrite Hp; apply lookup_insert_eq).
  assert (fd_checksum fd = sha256_hex data) as Hsum.
  { rewrite Hck. unfold sha256_hex. by rewrite read_blocks_update by lia. }
  split; [done|]. unfold round_trip, raw_file, download_file.
  destruct (registered_served false (Some (ustr "text/plain")) e' _ _ _ _ _
              _ _ Hwf Hpath Hadd Hdisk Hflt) as [-> (d & Hd & Hdc & _ & Hds)].
  destruct (registered_served true None e' _ _ _ _ _
              _ _ Hwf Hpath Hadd Hdisk Hflt) as [-> _].
  repeat split; try done. exists d. simpl. by rewrite Hdc, Hds, Hsum, Hsz.
Qed.

(** C1. A valid upload (a non-empty filename with an allowed extension
    and a body within the cap) that meets no engine fault and no taken
    name is accepted. Whenever a handler accepts an upload, the raw and
    download routes under the generated storage name send back exactly the
    uploaded bytes, and the checksum in the answer and in the catalog is
    the SHA-256 hex digest of those bytes: reading the file in 4096-byte
    blocks gives the digest of the whole. *)
Theorem upload_round_trip e r w e' :
  wf_catalog (view (db w)) ->
  lookup_fault e' = None ->
  (forall filename data,
     up_file r = Some (filename, data) ->
     filename <> [] ->
     allowed_file filename = true ->
     content_length r <= MAX_CONTENT_LENGTH ->
     write_fault e = None ->
     upload_conflict e r filename (view (db w)) = false ->
     accepted (upload_file e r w).1 = true /\
     accepted (api_upload e r w).1 = true) /\
  (accepted (upload_file e r w).1 = true ->
   exists filename data fd,
     up_file r = Some (filename, data) /\
     allowed_file filename = true /\
     content_length r <= MAX_CONTENT_LENGTH /\
     (upload_file e r w).1 = Page 200 (UploadSuccessful fd) /\
     fd_filename fd = upload_name e filename /\
     round_trip e' data fd (upload_file e r w).2) /\
  (accepted (api_upload e r w).1 = true ->
   exists filename data fd,
     up_file r = Some (filename, data) /\
     allowed_file filename = true /\
     content_length r <= MAX_CONTENT_LENGTH /\
     (api_upload e r w).1 = Json 200 (JsonUploaded fd) /\
     fd_filename fd = upload_name e filename /\
     round_trip e' data fd (api_upload e r w).2) /\
  (forall (n : nat) data,
     (0 < n)%nat ->
     sha256_hexdigest (read_blocks n data sha256_new) = sha256_hex data).
Proof.
  intros Hwf Hflt. split; [|split; [|split]].
  - intros filename data. apply upload_valid_accepted.
  - intros Hacc.
    destruct (upload_file_accepted e r w Hacc)
      as (filename & data & fd & c' & Hf & _ & Ha & Hlen & Hs & Hadd & Heq).
    exists filename, data, fd. rewrite Heq. simpl.
    destruct (saved_round_trip e e' r filename data _ w fd c' Hwf Hflt Hs Hadd).
    done.
  - intros Hacc.
    destruct (api_upload_accepted e r w Hacc)
      as (filename & data & fd & c' & Hf & _ & Ha & Hlen & Hs & Hadd & Heq).
    exists filename, data, fd. rewrite Heq. simpl.
    destruct (saved_round_trip e e' r filename data _ w fd c' Hwf Hflt Hs Hadd).
    done.
  - intros n data Hn. unfold sha256_hex. by rewrite read_blocks_update.
Qed.

End Checksum.

(** * Further properties of the catalog and the routes *)

(** ** Registration *)

Lemma raises_false (flt : fault) (k : nat) :
  raises flt k = false <-> flt <> Some k.
Proof. unfold raises. apply bool_decide_eq_false. Qed.

(** X1. [add_file] returns [True] exactly when none of its three
    statements is failed and no row already holds the storage path, the
    public URL or the raw URL. It then has appended one row to [files] and
    one to [file_versions], left [access_logs] alone and committed; when a
    UNIQUE column collides it returns [False] with the connection exactly
    as it was. *)
Theorem add_file_outcome (flt : fault) (now : Z) (fd : file_data) (c : conn) :
  ((add_file flt now fd c).1 = true <->
   flt <> Some 0%nat /\ flt <> Some 1%nat /\ flt <> Some 2%nat /\
   files_conflict fd (view c) = false) /\
  ((add_file flt now fd c).1 = true ->
   let c' := (add_file flt now fd c).2 in
   files (view c') = files (view c) ++ [new_file_row now fd (view c)] /\
   file_versions (view c') =
     file_versions (view c) ++ [new_version_row now fd (view c)] /\
   access_logs (view c') = access_logs (view c) /\
   durable c' = view c') /\
  (files_conflict fd (view c) = true -> add_file flt now fd c = (false, c)).
Proof.
  rewrite add_file_unfold. split; [|split].
  - rewrite <- !raises_false.
    destruct (raises flt 0), (files_conflict fd (view c)), (raises flt 1),
      (raises flt 2); simpl; split; try done; by intros (? & ? & ? & ?).
  - destruct (raises flt 0), (files_conflict fd (view c)), (raises flt 1),
      (raises flt 2); simpl; done.
  - intros ->. by rewrite orb_true_r.
Qed.

(** ** Identifiers *)



Lemma record_view_unfold (flt : fault) (now fid : Z) (ip ua : option pystr)
    (c : conn) :
  (record_view flt now fid ip ua c).2 =
  if raises flt 0 then c
  else
    let t1 := insert_access_logs now fid ip ua (ustr "view") (view c) in
    if raises flt 1 then set_view t1 c else commit (set_view t1 c).
Proof.
  unfold record_view, try_except, sql_bind, execute, do_commit, no_conflict.
  destruct (raises flt 0); [done|]. simpl. by destruct (raises flt 1).
Qed.

Lemma record_view_files (flt : fault) now fid ip ua c :
  files (view (record_view flt now fid ip ua c).2) = files (view c) /\
  file_versions (view (record_view flt now fid ip ua c).2) =
    file_versions (view c) /\
  seq_files (view (record_view flt now fid ip ua c).2) = seq_files (view c).
Proof.
  rewrite record_view_unfold.
  destruct (raises flt 0); [done|]. simpl. by destruct (raises flt 1).
Qed.



(** ** Version history *)

Lemma get_file_versions_unfold (filename : pystr) (c : conn) :
  get_file_versions None filename c =
  (map dict_of_version
     (order_by_desc v_created_at
        (List.filter (fun v => str_eqb (v_filename v) filename)
           (file_versions (view c)))),
   c).
Proof. done. Qed.

(** X3. [get_file_versions] returns the entries whose [filename] is
    exactly the requested name, newest first; each successful [add_file]
    adds one entry to the history of its [original_filename] and none to
    the history of any other name. *)
Theorem get_file_versions_history (filename : pystr) (c : conn) :
  (exists rows,
     get_file_versions None filename c = (map dict_of_version rows, c) /\
     rows ≡ₚ List.filter (fun v => str_eqb (v_filename v) filename)
               (file_versions (view c)) /\
     StronglySorted (key_desc v_created_at) rows) /\
  (forall (flt : fault) now fd,
     (add_file flt now fd c).1 = true ->
     length (get_file_versions None filename (add_file flt now fd c).2).1 =
       (length (get_file_versions None filename c).1 +
        if str_eqb (fd_original_filename fd) filename then 1 else 0)%nat).
Proof.
  split.
  - eexists. split; [apply get_file_versions_unfold|].
    split; [apply order_by_desc_perm | apply order_by_desc_sorted].
  - intros flt now fd Hok.
    destruct (add_file_outcome flt now fd c) as (_ & Hrows & _).
    destruct (Hrows Hok) as (_ & Hver & _).
    rewrite !get_file_versions_unfold. simpl.
    rewrite !length_map, !order_by_desc_perm, Hver, List.filter_app,
      length_app.
    simpl. by destruct (str_eqb (fd_original_filename fd) filename).
Qed.

(** ** Views *)

(** X4. [record_view] never changes a row of [files] or of
    [file_versions], whether or not the engine fails it, so no download
    count moves and no download row appears; when it is not failed it
    appends one access-log row with action [view] for the id and
    commits. *)
Theorem record_view_only_logs (flt : fault) (now fid : Z)
    (ip ua : option pystr) (c : conn) :
  let c' := (record_view flt now fid ip ua c).2 in
  files (view c') = files (view c) /\
  file_versions (view c') = file_versions (view c) /\
  (forall fid', download_rows fid' (view c') = download_rows fid' (view c)) /\
  (flt = None ->
   access_logs (view c') =
     access_logs (view c) ++
     [{| a_id := seq_access_logs (view c) + 1;
         a_file_id := fid;
         a_ip_address := ip;
         a_user_agent := ua;
         a_referrer := None;
         a_action := Some (ustr "view");
         a_accessed_at := now |}] /\
   length (view_rows fid (view c')) = S (length (view_rows fid (view c))) /\
   durable c' = view c').
Proof.
  intros c'. subst c'.
  destruct (record_view_files flt now fid ip ua c) as (Hf & Hv & _).
  split; [done|]. split; [done|]. split.
  - intros fid'. rewrite record_view_unfold. unfold download_rows.
    destruct (raises flt 0); [done|]. simpl.
    destruct (raises flt 1); simpl; rewrite List.filter_app; simpl;
      rewrite andb_false_r; by rewrite app_nil_r.
  - intros ->. rewrite record_view_unfold. simpl. split; [done|].
    split; [|done]. unfold view_rows. simpl.
    rewrite List.filter_app, length_app. simpl. rewrite Z.eqb_refl. simpl.
    lia.
Qed.

(** ** Engine faults *)




(** ** The details page *)


(** ** Invariants of the handlers *)



(** ** Serving *)


(** ** The storage root *)

Lemma upload_fs_frame (who : pystr) e r filename data disk p :
  p <> upload_path e filename ->
  (save_upload e r filename data who disk).1 !! p = disk !! p.
Proof.
  intros Hp.
  destruct (save_upload_unfold e r filename data who disk) as (fd & -> & _).
  simpl. by rewrite lookup_insert_ne.
Qed.

Lemma unlink_if_exists_frame (path p : pystr) (disk : gmap pystr bytes) :
  p <> path -> unlink_if_exists path disk !! p = disk !! p.
Proof.
  intros Hp. unfold unlink_if_exists.
  destruct (bool_decide _); [|done]. by rewrite lookup_delete_ne.
Qed.

(** X9. A request writes at most one path of the storage root: an upload
    leaves every path other than the storage path it generates as it was,
    whether it is accepted, refused or fails, and the raw, download,
    details and info routes leave the whole storage root as it was. *)
Theorem handlers_write_one_path (e : environ) (w : world) :
  (forall r p,
     (forall filename data,
        up_file r = Some (filename, data) -> p <> upload_path e filename) ->
     fs (upload_file e r w).2 !! p = fs w !! p /\
     fs (api_upload e r w).2 !! p = fs w !! p) /\
  (forall filename,
     fs (raw_file e filename w).2 = fs w /\
     fs (download_file e filename w).2 = fs w /\
     fs (api_file_info e filename w).2 = fs w) /\
  (forall versions_fault file_id,
     fs (view_file e versions_fault file_id w).2 = fs w).
Proof.
  split; [|split].
  - intros r p Hp. unfold upload_file, api_upload.
    destruct (request_files r) as [[[filename data]|]|] eqn:Hreq; try done.
    assert (up_file r = Some (filename, data)) as Hf.
    { unfold request_files in Hreq.
      destruct (MAX_CONTENT_LENGTH <? content_length r); [done|].
      by injection Hreq. }
    specialize (Hp filename data Hf).
    destruct (str_eqb filename []); [done|].
    destruct (negb (allowed_file filename)); [done|]. split.
    + pose proof (upload_fs_frame (ustr "Admin") e r filename data (fs w) p
                    Hp) as Hframe.
      destruct (save_upload_unfold e r filename data (ustr "Admin") (fs w))
        as (fd & Hs & _ & _ & Hpath & _).
      rewrite Hs in *. simpl in Hframe.
      destruct (add_file _ _ fd (db w)) as [[] c']; simpl; [done|].
      rewrite unlink_if_exists_frame; [done|]. by rewrite Hpath.
    + pose proof (upload_fs_frame (ustr "API User") e r filename data (fs w)
                    p Hp) as Hframe.
      destruct (save_upload_unfold e r filename data (ustr "API User") (fs w))
        as (fd & Hs & _ & _ & Hpath & _).
      rewrite Hs in *. simpl in Hframe.
      destruct (add_file _ _ fd (db w)) as [[] c']; simpl; [done|].
      rewrite unlink_if_exists_frame; [done|]. by rewrite Hpath.
  - intros filename.
    assert (forall att mt, fs (serve att mt e filename w).2 = fs w) as Hserve.
    { intros att mt. unfold serve.
      destruct (get_file_by_filename _ _ _) as [[d|] c]; [|done].
      destruct (fs w !! d_storage_path d); [|done].
      by destruct (record_download _ _ _ _ _ _). }
    split; [apply Hserve|]. split; [apply Hserve|].
    unfold api_file_info. by destruct (get_file_by_filename _ _ _) as [[d|] c].
  - intros vf file_id. unfold view_file.
    destruct (get_file_by_id _ _ _) as [[d|] c]; [|done].
    destruct (record_view _ _ _ _ _ _) as [[] c1].
    by destruct (get_file_versions _ _ c1).
Qed.

(** ** Taken names *)

(** X10. An upload whose generated storage path is already recorded in
    the catalog is refused on the UNIQUE column, after its bytes have
    replaced the blob at that path: the handler then deletes the path, so
    the earlier upload's blob is gone while its record stays, and the raw
    route answers 404 for it. *)
Theorem upload_on_taken_name (e e' : environ) (r : upload) (w : world)
    (filename : pystr) (data : bytes) (row : file_row) :
  up_file r = Some (filename, data) ->
  filename <> [] ->
  allowed_file filename = true ->
  content_length r <= MAX_CONTENT_LENGTH ->
  List.find (fun x => str_eqb (f_filename x) (upload_name e filename))
    (files (view (db w))) = Some row ->
  f_storage_path row = upload_path e filename ->
  upload_file e r w =
    (Page 200 UploadFailed,
     {| fs := delete (upload_path e filename) (fs w); db := db w |}) /\
  api_upload e r w =
    (Json 500 (JsonError (ustr "Database error")),
     {| fs := delete (upload_path e filename) (fs w); db := db w |}) /\
  status_of (raw_file e' (upload_name e filename) (upload_file e r w).2).1
    = 404.
Proof.
  intros Hf Hne Ha Hlen Hfind Hpath.
  assert (str_eqb filename [] = false) as Hne'
    by (by apply bool_decide_eq_false).
  assert (forall who fd disk,
            save_upload e r filename data who (fs w) = (disk, Some fd) ->
            add_file (write_fault e) (clock e) fd (db w) = (false, db w))
    as Hadd.
  { intros who fd disk Hs.
    apply (proj2 (proj2 (add_file_outcome _ _ _ _))).
    rewrite (files_conflict_upload _ _ _ _ _ _ _ _ _ Hs).
    unfold upload_conflict. apply existsb_exists. exists row.
    apply find_some in Hfind as [Hin _]. split; [done|].
    assert (str_eqb (f_storage_path row) (upload_path e filename) = true)
      as -> by (by apply str_eqb_eq).
    done. }
  assert (upload_file e r w =
            (Page 200 UploadFailed,
             {| fs := delete (upload_path e filename) (fs w); db := db w |}))
    as Hup.
  { unfold upload_file, request_files. rewrite Hf.
    destruct (Z.ltb_spec MAX_CONTENT_LENGTH (content_length r)); [lia|].
    rewrite Hne', Ha. simpl.
    destruct (save_upload_unfold e r filename data (ustr "Admin") (fs w))
      as (fd & Hs & _ & _ & Hp & _).
    rewrite Hs, (Hadd _ _ _ Hs), Hp. by rewrite delete_saved. }
  split; [exact Hup|]. split.
  - unfold api_upload, request_files. rewrite Hf.
    destruct (Z.ltb_spec MAX_CONTENT_LENGTH (content_length r)); [lia|].
    rewrite Hne', Ha. simpl.
    destruct (save_upload_unfold e r filename data (ustr "API User") (fs w))
      as (fd & Hs & _ & _ & Hp & _).
    rewrite Hs, (Hadd _ _ _ Hs), Hp. by rewrite delete_saved.
  - rewrite Hup. simpl.
    apply (serve_not_found false (Some (ustr "text/plain")) e'). right.
    exists row. split; [exact Hfind|]. simpl. rewrite Hpath.
    apply lookup_delete_eq.
Qed.

(** ** Metadata *)

Lemma save_upload_record e r filename data who disk :
  exists fd,
    save_upload e r filename data who disk =
      (<[upload_path e filename := data]> disk, Some fd) /\
    fd =
      {| fd_filename := upload_name e filename;
         fd_original_filename := secure_filename filename;
         fd_file_type := file_type_of (secure_filename filename);
         fd_file_size := Z.of_nat (length data);
         fd_version := default (ustr "1.0.0") (up_version r);
         fd_storage_path := upload_path e filename;
         fd_public_url :=
           rstrip slash (up_host_url r) ++ ustr "file/"
             ++ upload_name e filename;
         fd_raw_url :=
           rstrip slash (up_host_url r) ++ ustr "raw/"
             ++ upload_name e filename;
         fd_download_url :=
           rstrip slash (up_host_url r) ++ ustr "download/"
             ++ upload_name e filename;
         fd_release_notes := default [] (up_release_notes r);
         fd_checksum := sha256_hexdigest (read_blocks 4096 data sha256_new);
         fd_uploader_id := ADMIN_ID;
         fd_uploader_name := who |}.
Proof.
  unfold save_upload, calculate_checksum.
  fold (upload_name e filename). fold (upload_path e filename).
  rewrite !lookup_insert_eq. eexists. split; reflexivity.
Qed.

(** X11. After an accepted upload the info route answers 200 under the
    generated storage name with the record of that upload: the sanitized
    original name, the lower-cased extension (or [txt]), the byte length,
    the version and notes of the form (or their defaults), the three
    URLs, the clock as creation time, a download count of 0 and the
    active flag set. *)
Theorem accepted_upload_metadata (e e' : environ) (r : upload) (w : world) :
  wf_catalog (view (db w)) ->
  lookup_fault e' = None ->
  accepted (upload_file e r w).1 = true ->
  exists filename data d,
    up_file r = Some (filename, data) /\
    (api_file_info e' (upload_name e filename) (upload_file e r w).2).1 =
      (200, Some d) /\
    d_filename d = upload_name e filename /\
    d_original_filename d = secure_filename filename /\
    d_file_type d = file_type_of (secure_filename filename) /\
    d_file_size d = Z.of_nat (length data) /\
    d_version d = default (ustr "1.0.0") (up_version r) /\
    d_release_notes d = Some (default [] (up_release_notes r)) /\
    d_storage_path d = upload_path e filename /\
    d_uploader_name d = Some (ustr "Admin") /\
    d_created_at d = clock e /\
    d_download_count d = SqlInt 0 /\
    d_is_active d = true.
Proof.
  intros Hwf Hflt Hacc.
  destruct (upload_file_accepted e r w Hacc)
    as (filename & data & fd & c' & Hf & _ & _ & _ & Hs & Hadd & Heq).
  destruct (save_upload_record e r filename data (ustr "Admin") (fs w))
    as (fd' & Hs' & Hfd).
  rewrite Hs in Hs'. injection Hs' as <-.
  assert (fd_storage_path fd = path_join UPLOAD_FOLDER (fd_filename fd))
    as Hpath by (by rewrite Hfd).
  pose proof (registered_lookup (write_fault e) (clock e) fd (db w) c' Hwf
                Hpath Hadd) as Hfind.
  assert (fd_filename fd = upload_name e filename) as Hname
    by (by rewrite Hfd).
  rewrite Hname in Hfind.
  exists filename, data, (dict_of_row (new_file_row (clock e) fd (view (db w)))).
  split; [exact Hf|].
  rewrite Heq. unfold api_file_info. rewrite get_file_by_filename_unfold.
  rewrite Hflt. simpl. rewrite Hfind. simpl. by rewrite Hfd.
Qed.

(** ** Storage names *)

Lemma pretty_N_go_chars (P : ascii -> Prop) (x : N) (s : string) :
  (forall d, (d < 10)%N -> P (pretty_N_char d)) ->
  Forall P (list_ascii_of_string s) ->
  Forall P (list_ascii_of_string (pretty_N_go x s)).
Proof.
  intros HP. revert s.
  induction (N.lt_wf_0 x) as [x _ IH]; intros s Hs.
  destruct (decide (x = 0)%N) as [->|Hx]; [by rewrite pretty_N_go_0|].
  rewrite pretty_N_go_step by lia. apply IH.
  - apply N.div_lt; lia.
  - simpl. constructor; [|done]. apply HP. by apply N.mod_lt.
Qed.

Lemma pretty_Z_chars (P : ascii -> Prop) (z : Z) :
  (forall d, (d < 10)%N -> P (pretty_N_char d)) ->
  P "-"%char ->
  Forall P (list_ascii_of_string (pretty z)).
Proof.
  intros HP Hdash.
  assert (forall p, Forall P (list_ascii_of_string (pretty (Npos p)))) as Hpos.
  { intros p. unfold pretty, pretty_N.
    destruct (decide (N.pos p = 0)%N); [done|].
    apply pretty_N_go_chars; [done | constructor]. }
  destruct z as [|p|p]; unfold pretty, pretty_Z.
  - constructor; [apply (HP 0%N); lia | constructor].
  - apply Hpos.
  - simpl. constructor; [done | apply Hpos].
Qed.

(** A rendered integer holds digits and at most a sign. *)
Lemma str_of_Z_chars (z : Z) :
  Forall (fun c => c <> underscore /\ c <> dot) (str_of_Z z).
Proof.
  unfold str_of_Z, ustr. apply Forall_fmap.
  apply (pretty_Z_chars (fun a => N_of_ascii a <> underscore /\
                                  N_of_ascii a <> dot)).
  - intros d Hd.
    assert (d = 0 \/ d = 1 \/ d = 2 \/ d = 3 \/ d = 4 \/ d = 5 \/ d = 6 \/
            d = 7 \/ d = 8 \/ d = 9)%N as Hcases by lia.
    repeat (destruct Hcases as [->|Hcases]; [by vm_compute|]).
    subst. by vm_compute.
  - by vm_compute.
Qed.

Lemma str_of_Z_inj (a b : Z) : str_of_Z a = str_of_Z b -> a = b.
Proof.
  unfold str_of_Z, ustr. intros H.
  apply (inj pretty).
  rewrite <- (string_of_list_ascii_of_string (pretty a)),
    <- (string_of_list_ascii_of_string (pretty b)).
  f_equal. revert H.
  generalize (list_ascii_of_string (pretty a)),
    (list_ascii_of_string (pretty b)).
  induction l as [|x l IH]; intros [|y l'] H; try done.
  simpl in H. injection H as Hxy Hl.
  f_equal; [|by apply IH].
  rewrite <- (ascii_N_embedding x), <- (ascii_N_embedding y). by rewrite Hxy.
Qed.

(** Two texts that agree after a prefix free of [c] and one [c] agree on
    the prefix and on the rest. *)
Lemma split_at_first (c : char) (a b ra rb : pystr) :
  c ∉ a -> c ∉ b -> a ++ c :: ra = b ++ c :: rb -> a = b /\ ra = rb.
Proof.
  revert b. induction a as [|x a IH]; intros [|y b] Ha Hb H; simpl in H.
  - by injection H.
  - injection H as -> _. exfalso. apply Hb. by left.
  - injection H as -> _. exfalso. apply Ha. by left.
  - injection H as -> H.
    destruct (IH b) as [-> ->]; [| |done|done].
    + intros Hin. apply Ha. by right.
    + intros Hin. apply Hb. by right.
Qed.

Lemma generate_unique_filename_shape (timestamp : Z) (random_str : pystr)
    (original_filename : pystr) :
  exists suffix,
    generate_unique_filename timestamp random_str original_filename =
      str_of_Z timestamp ++ underscore :: random_str ++ suffix /\
    (suffix = [] \/
     exists ext, suffix = dot :: ext /\ ext <> [] /\
                 rsplit_last dot original_filename = Some ext).
Proof.
  unfold generate_unique_filename.
  destruct (contains_char dot original_filename) eqn:Hc.
  - destruct (rsplit_last dot original_filename) as [[|x ext]|] eqn:Hr; simpl.
    + exists []. by rewrite app_nil_r; auto.
    + exists (dot :: x :: ext). split; [done|]. right. by eexists.
    + exists []. by rewrite app_nil_r; auto.
  - exists []. simpl. by rewrite app_nil_r; auto.
Qed.

(** X12. The storage name keeps the extension of the name it is made
    from: when the text after the last ['.'] is not empty, it is again the
    text after the last ['.'] of the storage name, so [allowed_file]
    judges both names alike; when the name has no ['.'] or ends in one,
    the storage name is the timestamp, an underscore and the token, with
    no extension of its own if the token has no ['.']. *)
Theorem generate_unique_filename_extension (timestamp : Z)
    (random_str original_filename : pystr) :
  (forall ext,
     rsplit_last dot original_filename = Some ext -> ext <> [] ->
     generate_unique_filename timestamp random_str original_filename =
       str_of_Z timestamp ++ [underscore] ++ random_str ++ [dot] ++ ext /\
     rsplit_last dot
       (generate_unique_filename timestamp random_str original_filename)
       = Some ext /\
     allowed_file
       (generate_unique_filename timestamp random_str original_filename)
       = allowed_file original_filename) /\
  (rsplit_last dot original_filename = None \/
   rsplit_last dot original_filename = Some [] ->
   generate_unique_filename timestamp random_str original_filename =
     str_of_Z timestamp ++ [underscore] ++ random_str /\
   (dot ∉ random_str ->
    allowed_file
      (generate_unique_filename timestamp random_str original_filename)
      = false)).
Proof.
  split.
  - intros ext Hr Hne.
    assert (contains_char dot original_filename = true) as Hc.
    { apply rsplit_last_Some in Hr as (stem & -> & _).
      apply contains_char_elem, elem_of_app. right. by left. }
    assert (generate_unique_filename timestamp random_str original_filename =
              str_of_Z timestamp ++ [underscore] ++ random_str ++ [dot] ++ ext)
      as Hgen.
    { unfold generate_unique_filename. rewrite Hc, Hr. simpl.
      by destruct ext. }
    assert (rsplit_last dot
              (str_of_Z timestamp ++ [underscore] ++ random_str ++ [dot] ++ ext)
            = Some ext) as Hext.
    { apply rsplit_last_Some.
      exists (str_of_Z timestamp ++ [underscore] ++ random_str).
      split; [by rewrite <- !app_assoc|].
      by apply rsplit_last_Some in Hr as (stem & _ & Hn). }
    split; [exact Hgen|]. rewrite Hgen. split; [exact Hext|].
    unfold allowed_file. rewrite Hext, Hr, Hc.
    assert (contains_char dot
              (str_of_Z timestamp ++ [underscore] ++ random_str ++ [dot] ++ ext)
            = true) as ->; [|done].
    apply contains_char_elem. rewrite !elem_of_app. right. right. right.
    left. by left.
  - intros Hr.
    assert (generate_unique_filename timestamp random_str original_filename =
              str_of_Z timestamp ++ [underscore] ++ random_str) as Hgen.
    { unfold generate_unique_filename.
      destruct (contains_char dot original_filename); [|done].
      by destruct Hr as [-> | ->]. }
    split; [exact Hgen|]. intros Htok. rewrite Hgen. unfold allowed_file.
    destruct (contains_char dot _) eqn:Hc; [|done].
    apply contains_char_elem in Hc.
    rewrite !elem_of_app in Hc. destruct Hc as [Hc|[Hc|Hc]].
    + pose proof (str_of_Z_chars timestamp) as Hch.
      rewrite Forall_forall in Hch. by destruct (Hch dot Hc).
    + apply list_elem_of_singleton in Hc. done.
    + done.
Qed.

(** X13. Storage names made with tokens of one length are equal only if
    the timestamps are equal and the tokens are equal: two uploads collide
    on their name only within one second and on one token. *)
Theorem generate_unique_filename_inj (t1 t2 : Z) (tok1 tok2 o1 o2 : pystr) :
  length tok1 = length tok2 ->
  generate_unique_filename t1 tok1 o1 = generate_unique_filename t2 tok2 o2 ->
  t1 = t2 /\ tok1 = tok2.
Proof.
  intros Hlen Heq.
  destruct (generate_unique_filename_shape t1 tok1 o1) as (s1 & H1 & _).
  destruct (generate_unique_filename_shape t2 tok2 o2) as (s2 & H2 & _).
  rewrite H1, H2 in Heq.
  assert (forall z, underscore ∉ str_of_Z z) as Hno.
  { intros z Hin. pose proof (str_of_Z_chars z) as Hch.
    rewrite Forall_forall in Hch. by destruct (Hch _ Hin). }
  apply split_at_first in Heq as [Ht Hrest]; [|apply Hno|apply Hno].
  split; [by apply str_of_Z_inj|].
  by apply app_inj_1 in Hrest as [? _].
Qed.

(** ** URLs *)

Lemma rstrip_spec (c : char) (s : pystr) :
  exists k : nat,
    s = rstrip c s ++ replicate k c /\ last (rstrip c s) <> Some c.
Proof.
  induction s as [|x t (k & Ht & Hlast)]; [by exists 0%nat|]. simpl.
  destruct (rstrip c t) as [|y r] eqn:Hr.
  - destruct (N.eqb_spec x c) as [->|Hne].
    + exists (S k). simpl in *. by rewrite Ht at 1.
    + exists k. simpl in *. split; [by rewrite Ht at 1|]. congruence.
  - exists k. split; [simpl in *; by rewrite Ht at 1|].
    exact Hlast.
Qed.

(** X14. The three URLs recorded for an upload are the host URL with all
    its trailing slashes removed, directly followed by [file/], [raw/] or
    [download/] and the storage name: no slash stands between the host
    part and the route word. *)
Theorem upload_urls (e : environ) (r : upload) (filename : pystr)
    (data : bytes) (who : pystr) (disk : gmap pystr bytes) :
  exists fd base (k : nat),
    (save_upload e r filename data who disk).2 = Some fd /\
    up_host_url r = base ++ replicate k slash /\
    last base <> Some slash /\
    fd_public_url fd = base ++ ustr "file/" ++ upload_name e filename /\
    fd_raw_url fd = base ++ ustr "raw/" ++ upload_name e filename /\
    fd_download_url fd = base ++ ustr "download/" ++ upload_name e filename.
Proof.
  destruct (rstrip_spec slash (up_host_url r)) as (k & Hk & Hlast).
  unfold save_upload, calculate_checksum.
  fold (upload_name e filename). fold (upload_path e filename).
  rewrite !lookup_insert_eq. simpl.
  eexists _, (rstrip slash (up_host_url r)), k.
  split; [reflexivity|]. done.
Qed.

(** ** Search and listing *)

(** X15. Whatever the query, wildcards included, every hit of
    [search_files] is an active record of the catalog that matches the
    pattern in one of the three fields, and the hits are in descending
    [created_at]; a query of more than 49998 bytes finds nothing. *)
Theorem search_files_sound (flt : fault) (q : pystr) (c : conn) :
  (forall hit,
     hit ∈ (search_files flt q c).1 ->
     exists row,
       row ∈ files (view c) /\ hit = hit_of_row row /\
       f_is_active row = true /\
       (like (Some (f_original_filename row)) ([percent] ++ q ++ [percent])
        || like (Some (f_version row)) ([percent] ++ q ++ [percent])
        || like (f_release_notes row) ([percent] ++ q ++ [percent])) = true) /\
  StronglySorted (key_desc h_created_at) (search_files flt q c).1 /\
  (SQLITE_MAX_LIKE_PATTERN_LENGTH < utf8_length q + 2 ->
   (search_files flt q c).1 = []).
Proof.
  unfold search_files, try_except, sql_bind, query, sql_ret, sql_raise.
  assert (utf8_length ([percent] ++ q ++ [percent]) = utf8_length q + 2)
    as Hlen.
  { rewrite !utf8_length_app. change (utf8_length [percent]) with 1. lia. }
  unfold like_too_long. rewrite Hlen.
  destruct (Z.ltb_spec SQLITE_MAX_LIKE_PATTERN_LENGTH (utf8_length q + 2));
    simpl.
  { split; [intros hit Hin; inversion Hin|]. split; [constructor|done]. }
  destruct (raises flt 0); simpl.
  { split; [intros hit Hin; inversion Hin|]. split; [constructor|lia]. }
  split; [|split; [|lia]].
  - intros hit Hin. apply list_elem_of_fmap in Hin as (row & -> & Hrow).
    rewrite order_by_desc_perm in Hrow.
    apply list_elem_of_In, filter_In in Hrow as [Hrow Hw].
    exists row. split; [by apply list_elem_of_In|]. split; [done|].
    unfold search_where in Hw. by apply andb_true_iff in Hw.
  - apply (StronglySorted_fmap hit_of_row (key_desc f_created_at)).
    + intros a b Hab. exact Hab.
    + apply order_by_desc_sorted.
Qed.

(** X16. The recent files of the home page and of the bot are at most
    five, as many as there are if fewer, and none of the records left out
    is newer than one that is shown. *)
Theorem recent_files_newest (c : conn) :
  length (recent_files None c) = Nat.min 5 (length (files (view c))) /\
  forall shown hidden,
    shown ∈ recent_files None c ->
    hidden ∈ drop 5 (get_all_files None c).1 ->
    s_created_at hidden <= s_created_at shown.
Proof.
  unfold recent_files. rewrite get_all_files_unfold. simpl. split.
  - rewrite length_take, length_map.
    by rewrite (Permutation_length (order_by_desc_perm f_created_at _)).
  - intros shown hidden Hs Hh.
    assert (StronglySorted (key_desc s_created_at)
              (map summary_of_row
                 (order_by_desc f_created_at (files (view c))))) as Hsorted.
    { apply (StronglySorted_fmap summary_of_row (key_desc f_created_at)).
      - intros a b Hab. exact Hab.
      - apply order_by_desc_sorted. }
    rewrite <- (take_drop 5) in Hsorted.
    exact (StronglySorted_app_1_elem_of _ _ _ _ _ Hsorted Hs Hh).
Qed.

(** ** Storage usage *)

(** X17. [get_storage_usage] counts the files of the storage root and
    sums their lengths: nothing for the empty root, one file and its
    length more when a blob is written to an unused path, one file and
    its length less when a blob is deleted. *)
Theorem get_storage_usage_counts (disk : gmap pystr bytes) (path : pystr)
    (data : bytes) :
  files_count (get_storage_usage ∅) = 0 /\
  total_bytes (get_storage_usage ∅) = 0 /\
  files_count (get_storage_usage disk) = Z.of_nat (size disk) /\
  (disk !! path = None ->
   files_count (get_storage_usage (<[path := data]> disk)) =
     files_count (get_storage_usage disk) + 1 /\
   total_bytes (get_storage_usage (<[path := data]> disk)) =
     total_bytes (get_storage_usage disk) + Z.of_nat (length data)) /\
  (disk !! path = Some data ->
   files_count (get_storage_usage (delete path disk)) =
     files_count (get_storage_usage disk) - 1 /\
   total_bytes (get_storage_usage (delete path disk)) =
     total_bytes (get_storage_usage disk) - Z.of_nat (length data)).
Proof.
  unfold get_storage_usage. simpl.
  split; [done|]. split; [done|]. split; [|split].
  - induction disk as [|p x m Hp _ IH] using map_first_key_ind; [done|].
    rewrite map_fold_insert_L; [|intros; lia|done].
    rewrite map_size_insert_None by done. rewrite IH. lia.
  - intros Hnone.
    rewrite !map_fold_insert_L; try done; intros; lia.
  - intros Hsome.
    rewrite (map_fold_delete_L (fun _ _ n => n + 1) 0 path data disk);
      [|intros; lia|done].
    rewrite (map_fold_delete_L (fun _ d n => n + Z.of_nat (length d)) 0 path
               data disk); [|intros; lia|done].
    split; by rewrite Z.add_simpl_r.
Qed.

(** ** Unknown ids *)

Lemma map_no_match {A} (P : A -> bool) (f : A -> A) (l : list A) :
  (forall x, x ∈ l -> P x = false) ->
  map (fun x => if P x then f x else x) l = l.
Proof.
  intros H. induction l as [|x l IH]; [done|]. simpl.
  rewrite (H x) by left. f_equal. apply IH. intros y Hy. apply H. by right.
Qed.

(** X18. The log does not check its ids against [files]:
    [record_download] and [record_view] for an id no record carries
    change no row of [files], yet each still appends exactly one
    access-log row for that id, with its action, and commits it; the id
    resolves to no record afterwards either. *)
Theorem log_rows_for_unknown_id (now fid : Z) (ip ua : option pystr)
    (c : conn) :
  (forall row, row ∈ files (view c) -> f_id row <> fid) ->
  (get_file_by_id None fid c).1 = None /\
  (let c' := (record_download None now fid ip ua c).2 in
   files (view c') = files (view c) /\
   access_logs (view c') =
     access_logs (view c) ++
     [new_access_row now fid ip ua (ustr "download") (view c)] /\
   length (download_rows fid (view c')) =
     S (length (download_rows fid (view c))) /\
   durable c' = view c' /\
   (get_file_by_id None fid c').1 = None) /\
  (let c' := (record_view None now fid ip ua c).2 in
   files (view c') = files (view c) /\
   access_logs (view c') =
     access_logs (view c) ++
     [new_access_row now fid ip ua (ustr "view") (view c)] /\
   length (view_rows fid (view c')) = S (length (view_rows fid (view c))) /\
   durable c' = view c' /\
   (get_file_by_id None fid c').1 = None).
Proof.
  intros Hno.
  assert (forall c', files (view c') = files (view c) ->
                     (get_file_by_id None fid c').1 = None) as Hnone.
  { intros c' Hfiles. rewrite get_file_by_id_unfold. simpl. rewrite Hfiles.
    destruct (List.find _ _) as [row|] eqn:Hfind; [|done].
    apply find_some in Hfind as [Hin Heq]. apply Z.eqb_eq in Heq.
    exfalso. apply (Hno row); [by apply list_elem_of_In | done]. }
  assert (files (view (record_download None now fid ip ua c).2)
            = files (view c)) as Hdl.
  { destruct (record_download_view now fid ip ua c) as [-> _]. simpl.
    apply (map_no_match (fun r => f_id r =? fid)).
    intros row Hrow. apply Z.eqb_neq. by apply Hno. }
  split; [by apply Hnone|]. split.
  - cbv zeta. split; [exact Hdl|]. split; [|split; [|split]].
    + by destruct (record_download_view now fid ip ua c) as [-> _].
    + rewrite record_download_rows, length_app. simpl. lia.
    + by destruct (record_download_view now fid ip ua c) as [_ ->].
    + by apply Hnone.
  - destruct (record_view_only_logs None now fid ip ua c)
      as (Hfiles & _ & _ & Hlog).
    destruct (Hlog eq_refl) as (Hrows & Hlen & Hdur).
    cbv zeta in *. split; [exact Hfiles|]. split; [exact Hrows|].
    split; [exact Hlen|]. split; [exact Hdur|]. by apply Hnone.
Qed.

(** ** Failures on which the engine rolls back *)

(** When the engine rolls the transaction back on the error, [add_file]
    returns [False] and nothing of the registration is left on the
    connection: what it reads is the committed database again. *)
Lemma add_file_rolled_back (k : nat) (now : Z) (fd : file_data) (c : conn) :
  (k <= 2)%nat ->
  files_conflict fd (view c) = false ->
  add_file (RolledBack k) now fd c = (false, rollback c).
Proof.
  intros Hk Hfree.
  unfold add_file, try_except, sql_bind, execute, do_commit, no_conflict.
  destruct k as [|[|[|k]]]; simpl; rewrite ?Hfree; try done. lia.
Qed.

(** When a statement after the first INSERT is refused and the
    transaction stays open, [add_file] returns [False] with the [files]
    row still pending on the connection; the next commit on the
    connection, here the one of [record_view], makes it durable. *)
Lemma add_file_refused_pending (k : nat) (now later fid : Z)
    (ip ua : option pystr) (fd : file_data) (c : conn) :
  k = 1%nat \/ k = 2%nat ->
  files_conflict fd (view c) = false ->
  let c1 := (add_file (Some k) now fd c).2 in
  (add_file (Some k) now fd c).1 = false /\
  durable c1 = durable c /\
  files (view c1) = files (view c) ++ [new_file_row now fd (view c)] /\
  files (durable (record_view None later fid ip ua c1).2) =
    files (view c) ++ [new_file_row now fd (view c)].
Proof.
  intros Hk Hfree. cbv zeta.
  assert (add_file (Some k) now fd c =
          (false,
           if (k =? 1)%nat then set_view (insert_files now fd (view c)) c
           else set_view (insert_file_versions now fd
                            (insert_files now fd (view c))) c)) as ->.
  { unfold add_file, try_except, sql_bind, execute, do_commit, no_conflict,
      raises.
    destruct Hk as [-> | ->]; simpl; by rewrite Hfree. }
  cbn [fst snd]. rewrite record_view_unfold.
  by destruct Hk as [-> | ->].
Qed.

End App.

(** * The reference environment: instances and scenarios *)

Import Reference.

#[local] Abbreviation ref_allowed_file := (allowed_file unicode_lower).
#[local] Abbreviation ref_upload_file :=
  (upload_file unicode_lower secure_filename sha256 sha256_new sha256_update
     sha256_hexdigest ADMIN_ID).
#[local] Abbreviation ref_api_upload :=
  (api_upload unicode_lower secure_filename sha256 sha256_new sha256_update
     sha256_hexdigest ADMIN_ID).
#[local] Abbreviation ref_view_file := (view_file read_text).

Lemma length_doubled (k : nat) (l : bytes) :
  Z.of_nat (length (doubled k l)) = 2 ^ Z.of_nat k * Z.of_nat (length l).
Proof.
  revert l. induction k as [|k IH]; intros l.
  - simpl. lia.
  - cbn [doubled]. rewrite IH, length_app, Nat2Z.inj_succ, Z.pow_succ_r by lia.
    lia.
Qed.

(** C4 at a failing input. On an error on which the engine rolls the
    transaction back (disk full, disk I/O error), whichever statement it
    strikes, [add_file] returns [False] and the connection is as before.
    But [add_file] itself never rolls back: when the engine refuses the
    second INSERT and leaves the transaction open (a damaged page of
    [file_versions]), the [files] row stays in the connection's open
    transaction with no [file_versions] row beside it, and the commit of
    the next [record_view] makes exactly that durable; when the commit is
    refused (the database file is locked), both rows stay pending and the
    next commit makes durable a registration that returned [False]. *)
Theorem add_file_fault_keeps_file_row :
  add_file (RolledBack 0) 1700000000 first_upload empty_conn
    = (false, empty_conn) /\
  add_file (RolledBack 1) 1700000000 first_upload empty_conn
    = (false, empty_conn) /\
  add_file (RolledBack 2) 1700000000 first_upload empty_conn
    = (false, empty_conn) /\
  (let res := add_file (Some 1%nat) 1700000000 first_upload empty_conn in
   res.1 = false /\
   map f_original_filename (files (view res.2)) = [ustr "config.json"] /\
   file_versions (view res.2) = [] /\
   durable res.2 = empty_tables /\
   let c2 := (record_view None 1700000005 1 None None res.2).2 in
   map f_original_filename (files (durable c2)) = [ustr "config.json"] /\
   file_versions (durable c2) = []) /\
  (let res := add_file (Some 2%nat) 1700000000 first_upload empty_conn in
   res.1 = false /\
   durable res.2 = empty_tables /\
   let c2 := (record_view None 1700000005 1 None None res.2).2 in
   map f_original_filename (files (durable c2)) = [ustr "config.json"] /\
   map v_filename (file_versions (durable c2)) = [ustr "config.json"]).
Proof. by vm_compute. Qed.

(** C8 at a failing input. The commit of the registration of an upload
    is refused because the database file is locked: both handlers answer
    with their error and the blob is gone, yet the record stays pending
    on the connection, where the listing already shows it. The next
    request that commits, here the details page of that record, makes it
    durable: the catalog then holds a record of the failed upload, whose
    raw URL answers 404. *)
Theorem failed_registration_leaves_row :
  let name := ustr "1700000000_Ab3dE9xZ.JSON" in
  let res := ref_upload_file locked_environ sample_upload empty_world in
  let api := ref_api_upload locked_environ sample_upload empty_world in
  res.1 = Page 200 UploadFailed /\
  api.1 = Json 500 (JsonError (ustr "Database error")) /\
  fs res.2 = ∅ /\ fs api.2 = ∅ /\
  durable (db res.2) = empty_tables /\
  map f_filename (files (view (db res.2))) = [name] /\
  map f_filename (files (view (db api.2))) = [name] /\
  map s_original_filename (get_all_files None (db res.2)).1
    = [ustr "config.JSON"] /\
  let later := ref_view_file sample_environ None 1 res.2 in
  later.1.1 = 200 /\
  map f_filename (files (durable (db later.2))) = [name] /\
  map v_filename (file_versions (durable (db later.2)))
    = [ustr "config.JSON"] /\
  status_of (raw_file sample_environ name later.2).1 = 404.
Proof. by vm_compute. Qed.

Lemma upload_round_trip_witness :
  wf_catalog (view (db empty_world)) /\
  accepted (ref_upload_file sample_environ sample_upload empty_world).1 = true /\
  exists filename data fd,
    up_file sample_upload = Some (filename, data) /\
    ref_allowed_file filename = true /\
    content_length sample_upload <= MAX_CONTENT_LENGTH /\
    (ref_upload_file sample_environ sample_upload empty_world).1 =
      Page 200 (UploadSuccessful fd) /\
    fd_filename fd = upload_name secure_filename sample_environ filename /\
    round_trip sha256 sha256_new sha256_update sha256_hexdigest
      sample_environ data fd
      (ref_upload_file sample_environ sample_upload empty_world).2.
Proof.
  assert (wf_catalog (view (db empty_world))) as Hwf by apply wf_catalog_empty.
  assert (accepted
            (ref_upload_file sample_environ sample_upload empty_world).1 = true)
    as Hacc by (vm_compute; reflexivity).
  split; [exact Hwf|]. split; [exact Hacc|].
  refine (proj1 (proj2 (upload_round_trip unicode_lower secure_filename
            sha256 sha256_new sha256_update sha256_hexdigest ADMIN_ID
            _ _ sample_environ sample_upload empty_world sample_environ
            Hwf eq_refl)) Hacc).
  - intros h. apply app_nil_r.
  - intros h a b. symmetry. apply app_assoc.
Defined.


Lemma oversize_upload_rejected_witness :
  MAX_CONTENT_LENGTH < Z.of_nat (length (doubled 24 [Byte.x20])) /\
  ref_upload_file sample_environ oversize_upload empty_world =
    (Abort 413, empty_world) /\
  ref_api_upload sample_environ oversize_upload empty_world =
    (Json 500 JsonException, empty_world).
Proof.
  assert (MAX_CONTENT_LENGTH < Z.of_nat (length (doubled 24 [Byte.x20])))
    as Hlen by (rewrite length_doubled; vm_compute; reflexivity).
  split; [exact Hlen|].
  exact (oversize_upload_rejected unicode_lower secure_filename sha256
           sha256_new sha256_update sha256_hexdigest ADMIN_ID sample_environ
           oversize_upload empty_world (ustr "big.json")
           (doubled 24 [Byte.x20]) eq_refl Hlen).
Defined.


Lemma search_files_plain_query_witness :
  plain (ustr "CONF") = true /\
  exists rows,
    search_files None (ustr "CONF") same_second_catalog =
      (map hit_of_row rows, same_second_catalog) /\
    rows ≡ₚ List.filter (contains_query (ustr "CONF"))
              (files (view same_second_catalog)) /\
    StronglySorted (key_desc f_created_at) rows.
Proof.
  assert (plain (ustr "CONF") = true) as Hq by (vm_compute; reflexivity).
  split; [exact Hq|].
  apply (proj1 search_files_plain_query (ustr "CONF") same_second_catalog Hq).
  vm_compute. congruence.
Defined.

Lemma failed_registration_deletes_blob_witness :
  (ref_upload_file faulty_environ sample_upload empty_world).1 =
    Page 200 UploadFailed /\
  fs (ref_upload_file faulty_environ sample_upload empty_world).2
    !! upload_path secure_filename faulty_environ (ustr "config.JSON") = None /\
  durable (db (ref_upload_file faulty_environ sample_upload empty_world).2) =
    durable (db empty_world).
Proof.
  assert (ustr "config.JSON" <> []) as Hne by done.
  assert (ref_allowed_file (ustr "config.JSON") = true) as Ha
    by (vm_compute; reflexivity).
  assert (content_length sample_upload <= MAX_CONTENT_LENGTH) as Hlen
    by (vm_compute; congruence).
  destruct (failed_registration_deletes_blob unicode_lower secure_filename
              sha256 sha256_new sha256_update sha256_hexdigest ADMIN_ID
              faulty_environ sample_upload empty_world (ustr "config.JSON")
              (to_bytes "{'a': 1}         ") eq_refl Hne Ha Hlen)
    as [Hpage _].
  edestruct Hpage as (_ & H1 & _ & H2 & H3).
  - vm_compute. reflexivity.
  - vm_compute. reflexivity.
  - exact (conj H1 (conj H2 H3)).
Defined.

Lemma missing_file_no_download_witness :
  let w := {| fs := ∅; db := same_second_catalog |} in
  let name := ustr "1700000000_Ab3dE9xZ.json" in
  status_of (raw_file sample_environ name w).1 = 404 /\
  (raw_file sample_environ name w).2 = w /\
  status_of (download_file sample_environ name w).1 = 404 /\
  (download_file sample_environ name w).2 = w.
Proof.
  apply missing_file_no_download. right. eexists. split.
  - vm_compute. reflexivity.
  - apply lookup_empty.
Defined.

Lemma allowed_file_without_dot_witness :
  (dot ∉ ustr "README") /\ ref_allowed_file (ustr "README") = false.
Proof.
  assert (dot ∉ ustr "README") as Hn.
  { intros H. apply contains_char_elem in H. vm_compute in H. congruence. }
  split; [exact Hn|].
  exact (proj1 (allowed_file_without_dot unicode_lower secure_filename sha256
                  sha256_new sha256_update sha256_hexdigest ADMIN_ID
                  (ustr "README") Hn)).
Defined.

(** ** Instances of the further properties *)

#[local] Abbreviation uploaded_world :=
  ((ref_upload_file sample_environ sample_upload empty_world).2).
#[local] Abbreviation uploaded_name := (ustr "1700000000_Ab3dE9xZ.JSON").

Lemma add_file_outcome_witness :
  (add_file None 1700000000 first_upload empty_conn).1 = true /\
  add_file None 1700000001 first_upload same_second_catalog =
    (false, same_second_catalog).
Proof.
  split.
  - apply (proj1 (add_file_outcome None 1700000000 first_upload empty_conn)).
    repeat split; discriminate.
  - apply (proj2 (proj2 (add_file_outcome None 1700000001 first_upload
                           same_second_catalog))).
    vm_compute. reflexivity.
Defined.


Lemma get_file_versions_history_witness :
  length (get_file_versions None (ustr "config.json")
            (add_file None 1700000009 third_upload same_second_catalog).2).1 =
    (length (get_file_versions None (ustr "config.json")
               same_second_catalog).1 +
     if str_eqb (fd_original_filename third_upload) (ustr "config.json")
     then 1 else 0)%nat.
Proof.
  apply (proj2 (get_file_versions_history (ustr "config.json")
                  same_second_catalog)).
  vm_compute. reflexivity.
Defined.

Lemma record_view_only_logs_witness :
  length (view_rows 1 (view (record_view None 1700000007 1 None None
                                same_second_catalog).2)) =
    S (length (view_rows 1 (view same_second_catalog))) /\
  durable (record_view None 1700000007 1 None None same_second_catalog).2 =
    view (record_view None 1700000007 1 None None same_second_catalog).2.
Proof.
  destruct (record_view_only_logs None 1700000007 1 None None
              same_second_catalog) as (_ & _ & _ & Hlog).
  destruct (Hlog eq_refl) as (_ & H1 & H2). exact (conj H1 H2).
Defined.





Lemma handlers_write_one_path_witness :
  fs uploaded_world !! ustr "uploads/other.json" =
    fs empty_world !! ustr "uploads/other.json".
Proof.
  destruct (handlers_write_one_path unicode_lower secure_filename sha256
              sha256_new sha256_update sha256_hexdigest ADMIN_ID read_text
              sample_environ empty_world) as (Hup & _).
  refine (proj1 (Hup sample_upload (ustr "uploads/other.json") _)).
  intros filename data [= <- <-]. vm_compute. congruence.
Defined.

Lemma upload_on_taken_name_witness :
  ref_upload_file sample_environ sample_upload uploaded_world =
    (Page 200 UploadFailed,
     {| fs := delete (upload_path secure_filename sample_environ
                        (ustr "config.JSON")) (fs uploaded_world);
        db := db uploaded_world |}) /\
  status_of
    (raw_file sample_environ
       (upload_name secure_filename sample_environ (ustr "config.JSON"))
       (ref_upload_file sample_environ sample_upload uploaded_world).2).1
    = 404.
Proof.
  assert (exists row,
            List.find
              (fun x => str_eqb (f_filename x)
                          (upload_name secure_filename sample_environ
                             (ustr "config.JSON")))
              (files (view (db uploaded_world))) = Some row /\
            f_storage_path row =
              upload_path secure_filename sample_environ (ustr "config.JSON"))
    as (row & Hfind & Hpath).
  { vm_compute. eexists. split; reflexivity. }
  assert (ustr "config.JSON" <> []) as Hne by done.
  assert (ref_allowed_file (ustr "config.JSON") = true) as Ha
    by (vm_compute; reflexivity).
  assert (content_length sample_upload <= MAX_CONTENT_LENGTH) as Hlen
    by (vm_compute; congruence).
  destruct (upload_on_taken_name unicode_lower secure_filename sha256
              sha256_new sha256_update sha256_hexdigest ADMIN_ID
              sample_environ sample_environ sample_upload uploaded_world
              (ustr "config.JSON") (to_bytes "{'a': 1}         ") row
              eq_refl Hne Ha Hlen Hfind Hpath) as (H1 & _ & H3).
  exact (conj H1 H3).
Defined.

Lemma accepted_upload_metadata_witness :
  exists filename data d,
    up_file sample_upload = Some (filename, data) /\
    (api_file_info sample_environ
       (upload_name secure_filename sample_environ filename)
       uploaded_world).1 = (200, Some d) /\
    d_file_type d = file_type_of unicode_lower (secure_filename filename) /\
    d_file_size d = Z.of_nat (length data) /\
    d_version d = default (ustr "1.0.0") (up_version sample_upload) /\
    d_download_count d = SqlInt 0.
Proof.
  assert (wf_catalog (view (db empty_world))) as Hwf by constructor.
  assert (accepted
            (ref_upload_file sample_environ sample_upload empty_world).1 = true)
    as Hacc by (vm_compute; reflexivity).
  destruct (accepted_upload_metadata unicode_lower secure_filename sha256
              sha256_new sha256_update sha256_hexdigest ADMIN_ID
              sample_environ sample_environ sample_upload empty_world
              Hwf eq_refl Hacc)
    as (filename & data & d & H1 & H2 & _ & _ & H5 & H6 & H7 & _ & _ & _ & _
        & H12 & _).
  exists filename, data, d. repeat split; assumption.
Defined.

Lemma generate_unique_filename_extension_witness :
  rsplit_last dot
    (generate_unique_filename 1700000000 (ustr "Ab3dE9xZ") (ustr "config.JSON"))
    = Some (ustr "JSON") /\
  ref_allowed_file
    (generate_unique_filename 1700000000 (ustr "Ab3dE9xZ") (ustr "config.JSON"))
    = ref_allowed_file (ustr "config.JSON").
Proof.
  destruct (proj1 (generate_unique_filename_extension unicode_lower 1700000000
                     (ustr "Ab3dE9xZ") (ustr "config.JSON")) (ustr "JSON"))
    as (_ & H1 & H2).
  - vm_compute. reflexivity.
  - discriminate.
  - exact (conj H1 H2).
Defined.

Lemma generate_unique_filename_inj_witness :
  generate_unique_filename 1700000000 (ustr "Ab3dE9xZ") (ustr "config.JSON") =
  generate_unique_filename (1699999999 + 1) (ustr "Ab3d" ++ ustr "E9xZ")
    (ustr "other.JSON") /\
  1700000000 = 1699999999 + 1 /\ ustr "Ab3dE9xZ" = ustr "Ab3d" ++ ustr "E9xZ".
Proof.
  assert (generate_unique_filename 1700000000 (ustr "Ab3dE9xZ")
            (ustr "config.JSON") =
          generate_unique_filename (1699999999 + 1)
            (ustr "Ab3d" ++ ustr "E9xZ") (ustr "other.JSON")) as Heq
    by (vm_compute; reflexivity).
  split; [exact Heq|].
  apply (generate_unique_filename_inj _ _ _ _ _ _ eq_refl Heq).
Defined.

Lemma upload_urls_witness :
  exists fd base (k : nat),
    (save_upload unicode_lower secure_filename sha256 sha256_new
       sha256_update sha256_hexdigest ADMIN_ID sample_environ sample_upload
       (ustr "config.JSON") (to_bytes "x") (ustr "Admin") ∅).2 = Some fd /\
    up_host_url sample_upload = base ++ replicate k slash /\
    last base <> Some slash /\
    fd_raw_url fd =
      base ++ ustr "raw/"
        ++ upload_name secure_filename sample_environ (ustr "config.JSON").
Proof.
  destruct (upload_urls unicode_lower secure_filename sha256 sha256_new
              sha256_update sha256_hexdigest ADMIN_ID sample_environ
              sample_upload (ustr "config.JSON") (to_bytes "x") (ustr "Admin")
              ∅) as (fd & base & k & H1 & H2 & H3 & _ & H5 & _).
  exists fd, base, k. repeat split; assumption.
Defined.

Lemma search_files_sound_witness :
  exists hit row,
    hit ∈ (search_files None (ustr "_") same_second_catalog).1 /\
    row ∈ files (view same_second_catalog) /\
    hit = hit_of_row row /\ f_is_active row = true.
Proof.
  assert (exists hit,
            (search_files None (ustr "_") same_second_catalog).1 !! 0%nat
              = Some hit) as [hit Hhit]
    by (vm_compute; eexists; reflexivity).
  apply list_elem_of_lookup_2 in Hhit.
  destruct (proj1 (search_files_sound None (ustr "_") same_second_catalog)
              hit Hhit) as (row & H1 & H2 & H3 & _).
  exists hit, row. repeat split; assumption.
Defined.

Lemma recent_files_newest_witness :
  exists shown hidden,
    shown ∈ recent_files None six_uploads_catalog /\
    hidden ∈ drop 5 (get_all_files None six_uploads_catalog).1 /\
    s_created_at hidden <= s_created_at shown.
Proof.
  assert (exists shown,
            recent_files None six_uploads_catalog !! 4%nat = Some shown)
    as [shown Hs] by (vm_compute; eexists; reflexivity).
  assert (exists hidden,
            drop 5 (get_all_files None six_uploads_catalog).1 !! 0%nat
              = Some hidden)
    as [hidden Hh] by (vm_compute; eexists; reflexivity).
  apply list_elem_of_lookup_2 in Hs. apply list_elem_of_lookup_2 in Hh.
  exists shown, hidden. split; [exact Hs|]. split; [exact Hh|].
  exact (proj2 (recent_files_newest six_uploads_catalog) shown hidden Hs Hh).
Defined.

Lemma get_storage_usage_counts_witness :
  files_count pyfloat
    (get_storage_usage pyfloat mb_rounded absolute
       (<[ustr "uploads/a.txt" := to_bytes "hello"]> ∅)) =
    files_count pyfloat (get_storage_usage pyfloat mb_rounded absolute ∅) + 1 /\
  total_bytes pyfloat
    (get_storage_usage pyfloat mb_rounded absolute
       (<[ustr "uploads/a.txt" := to_bytes "hello"]> ∅)) =
    total_bytes pyfloat (get_storage_usage pyfloat mb_rounded absolute ∅)
    + Z.of_nat (length (to_bytes "hello")).
Proof.
  destruct (get_storage_usage_counts pyfloat mb_rounded absolute ∅
              (ustr "uploads/a.txt") (to_bytes "hello"))
    as (_ & _ & _ & Hins & _).
  apply Hins. apply lookup_empty.
Defined.

Lemma log_rows_for_unknown_id_witness :
  (get_file_by_id None 42 same_second_catalog).1 = None /\
  length (download_rows 42
            (view (record_download None 1700000007 42 None None
                     same_second_catalog).2)) =
    S (length (download_rows 42 (view same_second_catalog))) /\
  files (view (record_view None 1700000007 42 None None
                 same_second_catalog).2) = files (view same_second_catalog) /\
  durable (record_view None 1700000007 42 None None same_second_catalog).2 =
    view (record_view None 1700000007 42 None None same_second_catalog).2.
Proof.
  destruct (log_rows_for_unknown_id 1700000007 42 None None
              same_second_catalog)
    as (H1 & (_ & _ & H2 & _) & (H3 & _ & _ & H4 & _)).
  - intros row Hrow. apply list_elem_of_In in Hrow. vm_compute in Hrow.
    destruct Hrow as [<-|[<-|[]]]; vm_compute; congruence.
  - exact (conj H1 (conj H2 (conj H3 H4))).
Defined.
